(** * Trace manager of the inference server: policy store, sampler, session
      buffers and local sink (src/src/tracer.cc), embedded shallowly.

    Conventions of the embedding:
    - integers are [Z]; [rate_], [log_frequency_] (uint32_t) and [count_]
      (int32_t) are only compared, copied, and (for [count_]) decremented
      while positive, so no wrap-around occurs on them;
    - a [std::stringstream] that is written with [operator<<] only is its
      content ([string]); the two streams that receive [<< rdbuf()] also carry
      the stream's fail bit, because inserting an empty buffer sets it;
    - the C-style return value of the update functions ([nullptr] on success,
      an error object otherwise) is an [option string] next to the state the
      call leaves behind;
    - a call that runs into undefined behaviour (a null pointer that is
      dereferenced) is told apart from a call that returns ([CallEnd]);
    - the order in which a [std::unordered_map] is walked is taken from the
      C++ library ([ContainerApi]). *)

From Stdlib Require Import ZArith Lia Bool Strings.Byte Strings.Ascii DecimalString.
From Stdlib Require DecimalFacts DecimalPos.
From stdpp Require Import gmap strings list fin_maps.

Open Scope string_scope.
Open Scope Z_scope.

(** ** Data model *)

(** [TRITONSERVER_InferenceTraceLevel] is a bit mask declared by the engine's
    public header; tracer.cc compares it with the DISABLED constant and tests
    the TIMESTAMPS bit. *)
Definition TRITONSERVER_InferenceTraceLevel := Z.
Definition TRITONSERVER_TRACE_LEVEL_DISABLED : TRITONSERVER_InferenceTraceLevel := 0.
Definition TRITONSERVER_TRACE_LEVEL_TIMESTAMPS : TRITONSERVER_InferenceTraceLevel := 4.
Definition TRITONSERVER_TRACE_LEVEL_TENSORS : TRITONSERVER_InferenceTraceLevel := 8.

Inductive InferenceTraceMode := TRACE_MODE_TRITON | TRACE_MODE_OPENTELEMETRY.

#[global] Instance InferenceTraceMode_eq_dec : EqDecision InferenceTraceMode.
Proof. solve_decision. Defined.

(** Backend options: mode identifier -> list of key/value settings. *)
Definition TraceConfigMap := list (string * list (string * string)).

(** A string stream that is the target of [<< rdbuf()].  Once the fail bit is
    set every later insertion is a no-op. *)
Record sstream := { sbuf : string; sfail : bool }.

Definition sstream_empty : sstream := {| sbuf := ""; sfail := false |}.

(** [os << text] *)
Definition put (os : sstream) (text : string) : sstream :=
  if sfail os then os else {| sbuf := sbuf os +:+ text; sfail := false |}.

(** [os << src.rdbuf()]: copies the whole source; when no character is
    inserted the fail bit of [os] is set. *)
Definition put_rdbuf (os : sstream) (src : string) : sstream :=
  if sfail os then os
  else if String.eqb src "" then {| sbuf := sbuf os; sfail := true |}
  else {| sbuf := sbuf os +:+ src; sfail := false |}.

(** [TraceManager::TraceSetting], with the fields tracer.cc reads and
    writes.  [file_] is the name of the [TraceFile] the setting points to
    ([file_->FileName()]).  The class is declared in tracer.h, which is not
    part of the sources at hand; the counters [sample_], [created_],
    [collected_] and [sample_in_stream_], which the specification describes
    as monotonic, are unbounded integers. *)
Record TraceSetting := {
  level_ : TRITONSERVER_InferenceTraceLevel;
  rate_ : Z;
  count_ : Z;
  log_frequency_ : Z;
  file_ : string;
  mode_ : InferenceTraceMode;
  config_map_ : TraceConfigMap;
  level_specified_ : bool;
  rate_specified_ : bool;
  count_specified_ : bool;
  log_frequency_specified_ : bool;
  filepath_specified_ : bool;
  mode_specified_ : bool;
  config_map_specified_ : bool;
  invalid_reason_ : string;
  sample_ : Z;
  created_ : Z;
  collected_ : Z;
  sample_in_stream_ : Z;
  trace_stream_ : sstream
}.

(** The constructor (tracer.cc, TraceSetting::TraceSetting): copies the
    arguments, zeroes the counters and records why the setting is unusable. *)
Definition TraceSetting_new
    (level : TRITONSERVER_InferenceTraceLevel) (rate count log_frequency : Z)
    (file : string) (mode : InferenceTraceMode) (config_map : TraceConfigMap)
    (level_specified rate_specified count_specified log_frequency_specified
     filepath_specified mode_specified config_map_specified : bool)
  : TraceSetting :=
  {| level_ := level; rate_ := rate; count_ := count;
     log_frequency_ := log_frequency; file_ := file; mode_ := mode;
     config_map_ := config_map;
     level_specified_ := level_specified; rate_specified_ := rate_specified;
     count_specified_ := count_specified;
     log_frequency_specified_ := log_frequency_specified;
     filepath_specified_ := filepath_specified;
     mode_specified_ := mode_specified;
     config_map_specified_ := config_map_specified;
     invalid_reason_ :=
       if level =? TRITONSERVER_TRACE_LEVEL_DISABLED then "tracing is disabled"
       else if rate =? 0 then "sample rate must be non-zero"
       else if bool_decide (mode = TRACE_MODE_TRITON) && String.eqb file ""
            then "trace file name is not given"
       else "";
     sample_ := 0; created_ := 0; collected_ := 0; sample_in_stream_ := 0;
     trace_stream_ := sstream_empty |}.

(** Modelled from the spec: the validity invariant of a policy.  The
    specification (section 3): a policy is valid iff level != DISABLED,
    rate > 0, and (mode == LocalLog implies the sink has a non-empty
    path). *)
Definition configured (s : TraceSetting) : bool :=
  negb (level_ s =? TRITONSERVER_TRACE_LEVEL_DISABLED)
  && (0 <? rate_ s)
  && (if bool_decide (mode_ s = TRACE_MODE_TRITON)
      then negb (String.eqb (file_ s) "") else true).

(** Modelled from the spec: the budget of a setting is used up.  The
    specification (section 3) on [count]: "remaining trace budget; 0 means
    unlimited; >0 decrements per trace created until exhausted, after which
    sampling silently stops".  A remaining budget of 0 is a used-up budget
    when traces were created from it, and the unlimited budget when none
    was: tracer.cc increments [created_] exactly when it decrements
    [count_]. *)
Definition exhausted (s : TraceSetting) : bool :=
  (count_ s =? 0) && (0 <? created_ s).

(** Modelled from the spec: [TraceSetting::Valid()] is defined in tracer.h,
    which is not part of the sources at hand.  It is the test of the
    validity invariant in the check of an update, and it is the only test
    of [SampleTrace] that can end the call before a decision is made, so
    the stop of the sampling after the budget is used up, which the
    specification describes, is part of it.  A setting as the constructor
    leaves it has created no trace: for the check of an update [Valid] is
    the validity invariant. *)
Definition Valid (s : TraceSetting) : bool :=
  configured s && negb (exhausted s).

(** Modelled from the spec: [TraceSetting::Reason()] (tracer.h) gives the
    descriptive reason of an invalid setting; the constructor stores it in
    [invalid_reason_]. *)
Definition Reason (s : TraceSetting) : string := invalid_reason_ s.

(** [TraceManager::NewSetting] as tracer.cc reads it: per field a clear flag
    and a nullable pointer to the new value; of the backend options only the
    pointer is read.  The pointers [level_], [rate_], ... carry the prefix
    [new_] here, their names being taken by the fields of [TraceSetting]. *)
Record NewSetting := {
  clear_level_ : bool;
  new_level_ : option TRITONSERVER_InferenceTraceLevel;
  clear_rate_ : bool;
  new_rate_ : option Z;
  clear_count_ : bool;
  new_count_ : option Z;
  clear_log_frequency_ : bool;
  new_log_frequency_ : option Z;
  clear_filepath_ : bool;
  new_filepath_ : option string;
  clear_mode_ : bool;
  new_mode_ : option InferenceTraceMode;
  new_config_map_ : option TraceConfigMap
}.

(** The default-constructed [NewSetting]: "no active update". *)
Definition NewSetting_default : NewSetting :=
  {| clear_level_ := false; new_level_ := None;
     clear_rate_ := false; new_rate_ := None;
     clear_count_ := false; new_count_ := None;
     clear_log_frequency_ := false; new_log_frequency_ := None;
     clear_filepath_ := false; new_filepath_ := None;
     clear_mode_ := false; new_mode_ := None;
     new_config_map_ := None |}.

(** [TraceManager]: the default and the current global setting, the model
    settings and the names of the models that mirror the global setting for
    some field.  The registry [trace_files_] only selects which [TraceFile]
    object backs a path; the name of the selected file is the merged
    [filepath] in either branch, and that name is what a setting records
    here. *)
Record TraceManager := {
  global_default_ : TraceSetting;
  global_setting_ : TraceSetting;
  model_settings_ : gmap string TraceSetting;
  fallback_used_models_ : gset string
}.

(** [TraceManager::TraceManager] *)
Definition TraceManager_new
    (level : TRITONSERVER_InferenceTraceLevel) (rate count log_frequency : Z)
    (filepath : string) (mode : InferenceTraceMode) (config_map : TraceConfigMap)
  : TraceManager :=
  let s := TraceSetting_new level rate count log_frequency filepath mode
             config_map false false false false false false false in
  {| global_default_ := s; global_setting_ := s;
     model_settings_ := ∅; fallback_used_models_ := ∅ |}.

(** ** Policy store: update and resolution *)

(** "if clear then it is not specified, otherwise, it is specified if it is
    being updated, or it was previously specified" *)
Definition specified_flag {A} (clear : bool) (current : option TraceSetting)
    (flag : TraceSetting -> bool) (new_value : option A) : bool :=
  if clear then false
  else (match current with Some c => flag c | None => false end)
       || bool_decide (is_Some new_value).

(** Second pass for one field: [fallback] is the value of the first pass.
    The current setting is dereferenced only when the field is specified
    without a new value, which implies that it exists. *)
Definition merged_value {A} (specified : bool) (new_value : option A)
    (current : option TraceSetting) (get : TraceSetting -> A) (fallback : A) : A :=
  if specified then
    match new_value with
    | Some v => v
    | None => match current with Some c => get c | None => fallback end
    end
  else fallback.

Definition is_global (model_name : string) : bool := String.eqb model_name "".

Definition invalid_setting_error (lts : TraceSetting) : string :=
  "Attempting to set invalid trace setting :" +:+ Reason lts.

(** [TraceManager::UpdateTraceSettingInternal] *)
Definition UpdateTraceSettingInternal (m : TraceManager) (model_name : string)
    (new_setting : NewSetting) : TraceManager * option string :=
  let current_setting :=
    if is_global model_name then Some (global_setting_ m)
    else model_settings_ m !! model_name in
  let fallback_setting :=
    if is_global model_name then global_default_ m else global_setting_ m in
  let level_specified :=
    specified_flag (clear_level_ new_setting) current_setting
      level_specified_ (new_level_ new_setting) in
  let rate_specified :=
    specified_flag (clear_rate_ new_setting) current_setting
      rate_specified_ (new_rate_ new_setting) in
  let count_specified :=
    specified_flag (clear_count_ new_setting) current_setting
      count_specified_ (new_count_ new_setting) in
  let log_frequency_specified :=
    specified_flag (clear_log_frequency_ new_setting) current_setting
      log_frequency_specified_ (new_log_frequency_ new_setting) in
  let filepath_specified :=
    specified_flag (clear_filepath_ new_setting) current_setting
      filepath_specified_ (new_filepath_ new_setting) in
  let mode_specified :=
    specified_flag (clear_mode_ new_setting) current_setting
      mode_specified_ (new_mode_ new_setting) in
  (* the clear position of this field tests the value pointer itself *)
  let config_map_specified :=
    specified_flag (bool_decide (is_Some (new_config_map_ new_setting)))
      current_setting config_map_specified_ (new_config_map_ new_setting) in
  let level :=
    merged_value level_specified (new_level_ new_setting) current_setting
      level_ (level_ fallback_setting) in
  let rate :=
    merged_value rate_specified (new_rate_ new_setting) current_setting
      rate_ (rate_ fallback_setting) in
  let count :=
    merged_value count_specified (new_count_ new_setting) current_setting
      count_ (count_ fallback_setting) in
  let log_frequency :=
    merged_value log_frequency_specified (new_log_frequency_ new_setting)
      current_setting log_frequency_ (log_frequency_ fallback_setting) in
  let filepath :=
    merged_value filepath_specified (new_filepath_ new_setting) current_setting
      file_ (file_ fallback_setting) in
  let mode :=
    merged_value mode_specified (new_mode_ new_setting) current_setting
      mode_ (mode_ fallback_setting) in
  let config_map :=
    merged_value config_map_specified (new_config_map_ new_setting)
      current_setting config_map_ (config_map_ fallback_setting) in
  let all_specified :=
    level_specified && rate_specified && count_specified
    && log_frequency_specified && filepath_specified in
  let none_specified :=
    negb (level_specified || rate_specified || count_specified
          || log_frequency_specified || filepath_specified) in
  if negb (is_global model_name) && negb all_specified && none_specified then
    (* "Simply let the model uses global setting" *)
    ({| global_default_ := global_default_ m;
        global_setting_ := global_setting_ m;
        model_settings_ := delete model_name (model_settings_ m);
        fallback_used_models_ := fallback_used_models_ m |}, None)
  else
    let fallback_models :=
      if is_global model_name then fallback_used_models_ m
      else if all_specified then fallback_used_models_ m ∖ {[model_name]}
      else {[model_name]} ∪ fallback_used_models_ m in
    let lts :=
      TraceSetting_new level rate count log_frequency filepath mode config_map
        level_specified rate_specified count_specified log_frequency_specified
        filepath_specified mode_specified config_map_specified in
    if negb (Valid lts) && negb (level =? TRITONSERVER_TRACE_LEVEL_DISABLED) then
      ({| global_default_ := global_default_ m;
          global_setting_ := global_setting_ m;
          model_settings_ := model_settings_ m;
          fallback_used_models_ := fallback_models |},
       Some (invalid_setting_error lts))
    else if is_global model_name then
      ({| global_default_ := global_default_ m;
          global_setting_ := lts;
          model_settings_ := model_settings_ m;
          fallback_used_models_ := fallback_models |}, None)
    else
      ({| global_default_ := global_default_ m;
          global_setting_ := global_setting_ m;
          model_settings_ := <[model_name := lts]> (model_settings_ m);
          fallback_used_models_ := fallback_models |}, None).

(** The loop of [UpdateTraceSetting] over the copy of
    [fallback_used_models_], in the order the container enumerates the
    names; the first error ends it (RETURN_IF_ERR). *)
Fixpoint update_fallback_models (m : TraceManager) (names : list string)
  : TraceManager * option string :=
  match names with
  | [] => (m, None)
  | name :: rest =>
      match UpdateTraceSettingInternal m name NewSetting_default with
      | (m', Some err) => (m', Some err)
      | (m', None) => update_fallback_models m' rest
      end
  end.

(** [TraceManager::UpdateTraceSetting] *)
Definition UpdateTraceSetting (m : TraceManager) (model_name : string)
    (new_setting : NewSetting) : TraceManager * option string :=
  match UpdateTraceSettingInternal m model_name new_setting with
  | (m', Some err) => (m', Some err)
  | (m', None) =>
      if is_global model_name
      then update_fallback_models m' (elements (fallback_used_models_ m'))
      else (m', None)
  end.

(** The setting [GetTraceSetting] and [SampleTrace] resolve for a model. *)
Definition resolve (m : TraceManager) (model_name : string) : TraceSetting :=
  match model_settings_ m !! model_name with
  | Some s => s
  | None => global_setting_ m
  end.

(** [TraceManager::GetTraceSetting]: the six output parameters. *)
Definition GetTraceSetting (m : TraceManager) (model_name : string)
  : TRITONSERVER_InferenceTraceLevel * Z * Z * Z * string * InferenceTraceMode :=
  let s := resolve m model_name in
  (level_ s, rate_ s, count_ s, log_frequency_ s, file_ s, mode_ s).

(** ** Sampler *)

(** In-place update of the sampling counters of a setting. *)
Definition set_sampling (s : TraceSetting) (sample count created : Z)
  : TraceSetting :=
  {| level_ := level_ s; rate_ := rate_ s; count_ := count;
     log_frequency_ := log_frequency_ s; file_ := file_ s; mode_ := mode_ s;
     config_map_ := config_map_ s;
     level_specified_ := level_specified_ s;
     rate_specified_ := rate_specified_ s;
     count_specified_ := count_specified_ s;
     log_frequency_specified_ := log_frequency_specified_ s;
     filepath_specified_ := filepath_specified_ s;
     mode_specified_ := mode_specified_ s;
     config_map_specified_ := config_map_specified_ s;
     invalid_reason_ := invalid_reason_ s;
     sample_ := sample; created_ := created; collected_ := collected_ s;
     sample_in_stream_ := sample_in_stream_ s;
     trace_stream_ := trace_stream_ s |}.

(** The locked block of [TraceSetting::SampleTrace]: the setting after the
    call and the value of [create_trace]. *)
Definition sample_decision (s : TraceSetting) : TraceSetting * bool :=
  if negb (Valid s) then (s, false)
  else
    let sample := sample_ s + 1 in
    let create_trace := sample mod rate_ s =? 0 in
    if create_trace && (0 <? count_ s)
    then (set_sampling s sample (count_ s - 1) (created_ s + 1), create_trace)
    else (set_sampling s sample (count_ s) (created_ s), create_trace).

(** How a call ends: it returns a result, or it dereferences a null
    pointer, after which the C++ standard promises nothing (in practice the
    process is killed). *)
Inductive CallEnd (A : Type) :=
| Returns (result : A)
| Faults.

Arguments Returns {A} result.
Arguments Faults {A}.

(** [Trace::~Trace] up to its first test, [setting_->mode_ ==
    TRACE_MODE_TRITON]: [setting] is what the pointer [setting_] of the
    destroyed trace holds.  The pointer is null from [new Trace()] until
    the caller of [TraceSetting::SampleTrace] assigns it
    ([ts->setting_ = trace_setting] in [TraceManager::SampleTrace]); the
    default constructor of [Trace] (tracer.h) has no argument to take a
    setting from. *)
Definition Trace_destroy_mode (setting : option TraceSetting)
  : CallEnd InferenceTraceMode :=
  match setting with
  | Some s => Returns (mode_ s)
  | None => Faults
  end.

(** [TraceSetting::SampleTrace].  [engine] is the outcome of
    [TRITONSERVER_InferenceTraceTensorNew] should it be called: [None] for an
    error, [Some id] for a new trace handle with that id.  The result is the
    setting as the locked block left it and the way the call ends: with the
    id of the created [Trace], with [nullptr], or in the destructor of the
    trace it made.  On an error of the engine, [delete trace_userp] and the
    end of the scope of [lts] release the two owners of the new [Trace],
    whose [setting_] was never assigned: [~Trace] runs on it before the
    [nullptr] is handed to the caller. *)
Definition TraceSetting_SampleTrace (s : TraceSetting) (engine : option Z)
  : TraceSetting * CallEnd (option Z) :=
  let '(s', create_trace) := sample_decision s in
  if create_trace then
    match engine with
    | Some id => (s', Returns (Some id))
    | None =>
        match Trace_destroy_mode None with
        | Returns _ => (s', Returns None)
        | Faults => (s', Faults)
        end
    end
  else (s', Returns None).

(** The creation decisions of [n] consecutive sampling opportunities. *)
Fixpoint decisions (s : TraceSetting) (n : nat) : list bool :=
  match n with
  | O => []
  | S k => let '(s', d) := sample_decision s in d :: decisions s' k
  end.


(** The counters of a setting after the locked blocks of a run of
    [SampleTrace] calls, one engine outcome per call. *)
Fixpoint after_calls (s : TraceSetting) (engines : list (option Z))
  : TraceSetting :=
  match engines with
  | [] => s
  | e :: rest => after_calls (fst (TraceSetting_SampleTrace s e)) rest
  end.

(** Number of positive decisions in a list. *)
Definition count_true (l : list bool) : Z :=
  Z.of_nat (length (filter (λ b, b = true) l)).

(** ** Engine interface *)

Inductive TRITONSERVER_InferenceTraceActivity :=
| TRITONSERVER_TRACE_REQUEST_START
| TRITONSERVER_TRACE_TENSOR_QUEUE_INPUT
| TRITONSERVER_TRACE_TENSOR_BACKEND_INPUT
| TRITONSERVER_TRACE_TENSOR_BACKEND_OUTPUT
| TRITONSERVER_TRACE_OTHER (code : Z).

Inductive TRITONSERVER_DataType :=
| TRITONSERVER_TYPE_INVALID
| TRITONSERVER_TYPE_BOOL
| TRITONSERVER_TYPE_UINT8
| TRITONSERVER_TYPE_UINT16
| TRITONSERVER_TYPE_UINT32
| TRITONSERVER_TYPE_UINT64
| TRITONSERVER_TYPE_INT8
| TRITONSERVER_TYPE_INT16
| TRITONSERVER_TYPE_INT32
| TRITONSERVER_TYPE_INT64
| TRITONSERVER_TYPE_FP16
| TRITONSERVER_TYPE_FP32
| TRITONSERVER_TYPE_FP64
| TRITONSERVER_TYPE_BYTES
| TRITONSERVER_TYPE_BF16.

Inductive TRITONSERVER_MemoryType :=
| TRITONSERVER_MEMORY_CPU
| TRITONSERVER_MEMORY_CPU_PINNED
| TRITONSERVER_MEMORY_GPU.

#[global] Instance TRITONSERVER_InferenceTraceActivity_eq_dec :
  EqDecision TRITONSERVER_InferenceTraceActivity.
Proof. solve_decision. Defined.

#[global] Instance TRITONSERVER_MemoryType_eq_dec :
  EqDecision TRITONSERVER_MemoryType.
Proof. solve_decision. Defined.

(** What tracer.cc takes from the engine and the C++ library without
    defining it: the names of activities and datatypes, and the text
    [operator<<] produces for a [float] or [double] stored in the given
    bytes. *)
Class EngineApi := {
  TRITONSERVER_InferenceTraceActivityString :
    TRITONSERVER_InferenceTraceActivity -> string;
  TRITONSERVER_DataTypeString : TRITONSERVER_DataType -> string;
  float_text : TRITONSERVER_DataType -> list byte -> string
}.

(** The accessors of an engine trace handle
    ([TRITONSERVER_InferenceTraceId] and friends). *)
Record InferenceTrace := {
  trace_handle_id : Z;
  trace_handle_parent_id : Z;
  trace_handle_model_name : string;
  trace_handle_model_version : Z;
  trace_handle_request_id : string
}.

(** ** Text helpers *)

(** Decimal text of an integer, as [operator<<] and [std::to_string] print
    it. *)
Definition dec (z : Z) : string := NilZero.string_of_int (Z.to_int z).

(** The double quote and the backslash. *)
Definition quote : string := String "034"%char "".
Definition backslash : string := String "092"%char "".

(** The two characters of the C++ literal for an escaped quote inside the
    tensor data string: a backslash and a double quote. *)
Definition escaped_quote : string := backslash +:+ quote.

(** A quoted token: the text between two double quotes, unescaped. *)
Definition q (text : string) : string := quote +:+ text +:+ quote.

(** ** Session *)

(** [TraceManager::Trace]: [setting_] is read for its immutable [mode_] and
    [level_] only; [streams_] maps a trace id to its buffer.  The span of the
    OpenTelemetry mode lives in the external exporter and is not part of the
    state. *)
Record Trace := {
  setting_ : TraceSetting;
  trace_id_ : Z;
  streams_ : gmap Z string
}.

Definition Trace_new (setting : TraceSetting) (trace_id : Z) : Trace :=
  {| setting_ := setting; trace_id_ := trace_id; streams_ := ∅ |}.

Definition set_streams (ts : Trace) (streams : gmap Z string) : Trace :=
  {| setting_ := setting_ ts; trace_id_ := trace_id_ ts; streams_ := streams |}.

(** The find / emplace / [*ss << ","] block shared by the three writers: a
    new empty stream for an unseen id, a separator after existing content. *)
Definition stream_begin (id : Z) (streams : gmap Z string) : gmap Z string :=
  match streams !! id with
  | None => <[id := ""]> streams
  | Some content => <[id := content +:+ ","]> streams
  end.

(** What the stream of [id] holds once the block above has run. *)
Definition stream_prefix (id : Z) (streams : gmap Z string) : string :=
  match streams !! id with
  | None => ""
  | Some content => content +:+ ","
  end.

(** [*ss << text] on the stream of [id]. *)
Definition stream_put (id : Z) (text : string) (streams : gmap Z string)
  : gmap Z string :=
  alter (λ content, content +:+ text) id streams.

Section Session.
Context {engine : EngineApi}.

(** The fragment every activity ends with. *)
Definition timestamp_fragment (id : Z) (name : string) (timestamp_ns : Z)
  : string :=
  "{" +:+ q "id" +:+ ":" +:+ dec id +:+ "," +:+ q "timestamps" +:+ ":["
  +:+ "{" +:+ q "name" +:+ ":" +:+ q name +:+ "," +:+ q "ns" +:+ ":"
  +:+ dec timestamp_ns +:+ "}]}".

(** The fragment of a REQUEST_START activity. *)
Definition request_fragment (trace : InferenceTrace) : string :=
  "{" +:+ q "id" +:+ ":" +:+ dec (trace_handle_id trace) +:+ ","
  +:+ q "model_name" +:+ ":" +:+ q (trace_handle_model_name trace) +:+ ","
  +:+ q "model_version" +:+ ":" +:+ dec (trace_handle_model_version trace)
  +:+ (if String.eqb (trace_handle_request_id trace) "" then ""
       else "," +:+ q "request_id" +:+ ":" +:+ q (trace_handle_request_id trace))
  +:+ (if trace_handle_parent_id trace =? 0 then ""
       else "," +:+ q "parent_id" +:+ ":" +:+ dec (trace_handle_parent_id trace))
  +:+ "},".

(** [TraceManager::Trace::CaptureTimestamp] *)
Definition CaptureTimestamp (ts : Trace) (name : string) (timestamp_ns : Z)
  : Trace :=
  if negb (Z.land (level_ (setting_ ts)) TRITONSERVER_TRACE_LEVEL_TIMESTAMPS =? 0)
  then
    match mode_ (setting_ ts) with
    | TRACE_MODE_TRITON =>
        set_streams ts
          (stream_put (trace_id_ ts)
             (timestamp_fragment (trace_id_ ts) name timestamp_ns)
             (stream_begin (trace_id_ ts) (streams_ ts)))
    | TRACE_MODE_OPENTELEMETRY => ts
    end
  else ts.

(** [TraceManager::TraceActivity] *)
Definition TraceActivity (trace : InferenceTrace)
    (activity : TRITONSERVER_InferenceTraceActivity) (timestamp_ns : Z)
    (ts : Trace) : Trace :=
  let id := trace_handle_id trace in
  match mode_ (setting_ ts) with
  | TRACE_MODE_TRITON =>
      let s1 := stream_begin id (streams_ ts) in
      let s2 :=
        if bool_decide (activity = TRITONSERVER_TRACE_REQUEST_START)
        then stream_put id (request_fragment trace) s1 else s1 in
      set_streams ts
        (stream_put id
           (timestamp_fragment id
              (TRITONSERVER_InferenceTraceActivityString activity) timestamp_ns)
           s2)
  | TRACE_MODE_OPENTELEMETRY => ts
  end.

End Session.

(** [TraceManager::InferenceTraceModeString] *)
Definition InferenceTraceModeString (mode : InferenceTraceMode) : string :=
  match mode with
  | TRACE_MODE_TRITON => "TRITON"
  | TRACE_MODE_OPENTELEMETRY => "OPENTELEMETRY"
  end.

(** ** Tensor serialization *)

(** [size_t element_count = 1; element_count *= shape[i]] with the
    wrap-around of a 64-bit [size_t]. *)
Definition element_count_of (shape : list Z) : Z :=
  fold_left (λ acc d, (acc * d) mod 2 ^ 64) shape 1.

(** Little-endian value of a run of bytes. *)
Fixpoint le_value (bs : list byte) : Z :=
  match bs with
  | [] => 0
  | b :: rest => Z.of_N (Byte.to_N b) + 256 * le_value rest
  end.

(** The bytes [offset, offset + len) of the buffer.  The engine hands over a
    buffer of at least [byte_size] bytes; the typed loops of the fixed-width
    datatypes read [element_count] elements from it without a bound check. *)
Definition bytes_at (base : list byte) (offset len : Z) : list byte :=
  take (Z.to_nat len) (drop (Z.to_nat offset) base).

Definition signed_value (width : Z) (v : Z) : Z :=
  if v <? 2 ^ (8 * width - 1) then v else v - 2 ^ (8 * width).

Definition width_of (datatype : TRITONSERVER_DataType) : Z :=
  match datatype with
  | TRITONSERVER_TYPE_BOOL | TRITONSERVER_TYPE_UINT8 | TRITONSERVER_TYPE_INT8 => 1
  | TRITONSERVER_TYPE_UINT16 | TRITONSERVER_TYPE_INT16 => 2
  | TRITONSERVER_TYPE_UINT32 | TRITONSERVER_TYPE_INT32
  | TRITONSERVER_TYPE_FP32 => 4
  | TRITONSERVER_TYPE_UINT64 | TRITONSERVER_TYPE_INT64
  | TRITONSERVER_TYPE_FP64 => 8
  | _ => 0
  end.

(** The shape list of the trailer: dimensions separated by commas. *)
Fixpoint shape_text (shape : list Z) : string :=
  match shape with
  | [] => ""
  | d :: rest =>
      dec d +:+ match rest with [] => "" | _ => "," +:+ shape_text rest end
  end.

Definition tensor_activity_supported
    (activity : TRITONSERVER_InferenceTraceActivity) : bool :=
  match activity with
  | TRITONSERVER_TRACE_TENSOR_QUEUE_INPUT
  | TRITONSERVER_TRACE_TENSOR_BACKEND_INPUT
  | TRITONSERVER_TRACE_TENSOR_BACKEND_OUTPUT => true
  | _ => false
  end.

Section Tensor.
Context {engine : EngineApi}.

(** [*ss << cbase[e]] for one element of a fixed-width datatype: a bool
    prints as 0 or 1, the 8-bit integers are streamed as characters, wider
    integers in decimal, floating point as the library formats it. *)
Definition element_text (datatype : TRITONSERVER_DataType) (bs : list byte)
  : string :=
  match datatype with
  | TRITONSERVER_TYPE_BOOL => if le_value bs =? 0 then "0" else "1"
  | TRITONSERVER_TYPE_UINT8 | TRITONSERVER_TYPE_INT8 => String.string_of_list_byte bs
  | TRITONSERVER_TYPE_UINT16 | TRITONSERVER_TYPE_UINT32
  | TRITONSERVER_TYPE_UINT64 => dec (le_value bs)
  | TRITONSERVER_TYPE_INT16 | TRITONSERVER_TYPE_INT32
  | TRITONSERVER_TYPE_INT64 =>
      dec (signed_value (width_of datatype) (le_value bs))
  | TRITONSERVER_TYPE_FP32 | TRITONSERVER_TYPE_FP64 => float_text datatype bs
  | _ => ""
  end.

(** The element loop of a fixed-width datatype, [n] iterations from index
    [e]. *)
Fixpoint fixed_loop (datatype : TRITONSERVER_DataType) (base : list byte)
    (element_count : Z) (n : nat) (e : Z) : string :=
  match n with
  | O => ""
  | S k =>
      element_text datatype
        (bytes_at base (e * width_of datatype) (width_of datatype))
      +:+ (if e <? element_count - 1 then "," else "")
      +:+ fixed_loop datatype base element_count k (e + 1)
  end.

(** The element loop of TRITONSERVER_TYPE_BYTES, [n] iterations from index
    [e] at [offset]: the text written and whether the loop ran to its end
    ([false]: one of the two [return] statements was taken). *)
Fixpoint bytes_loop (base : list byte) (byte_size element_count : Z)
    (n : nat) (e offset : Z) : string * bool :=
  match n with
  | O => ("", true)
  | S k =>
      if byte_size <? offset + 4 then ("", false)
      else
        let len := le_value (bytes_at base offset 4) in
        let offset := offset + 4 in
        if byte_size <? offset + len then ("", false)
        else
          let str := String.string_of_list_byte (bytes_at base offset len) in
          let text :=
            escaped_quote +:+ str +:+ escaped_quote
            +:+ (if e <? element_count - 1 then "," else "") in
          let '(rest, finished) :=
            bytes_loop base byte_size element_count k (e + 1) (offset + len) in
          (text +:+ rest, finished)
  end.

(** What is streamed before the datatype switch. *)
Definition tensor_header (id : Z)
    (activity : TRITONSERVER_InferenceTraceActivity) (name : string) : string :=
  "{" +:+ q "id" +:+ ":" +:+ dec id +:+ "," +:+ q "activity" +:+ ":"
  +:+ q (TRITONSERVER_InferenceTraceActivityString activity)
  +:+ "," +:+ q "tensor" +:+ ":{"
  +:+ q "name" +:+ ":" +:+ q name
  +:+ "," +:+ q "data" +:+ ":" +:+ quote.

(** What is streamed after the datatype switch. *)
Definition tensor_trailer (datatype : TRITONSERVER_DataType) (shape : list Z)
  : string :=
  quote +:+ "," +:+ q "shape" +:+ ":" +:+ quote +:+ shape_text shape
  +:+ quote +:+ "," +:+ q "dtype" +:+ ":"
  +:+ q (TRITONSERVER_DataTypeString datatype) +:+ "}" +:+ "}".

(** [TraceManager::TraceTensorActivity].  [host_copy] is the host copy of a
    device buffer when one can be made ([None]: no GPU support in the build,
    or the allocation failed).  The second component lists the messages
    logged with LOG_ERROR. *)
Definition TraceTensorActivity (trace : InferenceTrace)
    (activity : TRITONSERVER_InferenceTraceActivity) (name : string)
    (datatype : TRITONSERVER_DataType) (base : list byte) (byte_size : Z)
    (shape : list Z) (memory_type : TRITONSERVER_MemoryType)
    (host_copy : option (list byte)) (ts : Trace) : Trace * list string :=
  if negb (tensor_activity_supported activity) then
    (ts, ["Unsupported activity: "
          +:+ TRITONSERVER_InferenceTraceActivityString activity])
  else
    match (if bool_decide (memory_type = TRITONSERVER_MEMORY_GPU)
           then host_copy else Some base) with
    | None => (ts, ["GPU buffer is unsupported"])
    | Some buffer_base =>
        match mode_ (setting_ ts) with
        | TRACE_MODE_OPENTELEMETRY =>
            (ts, ["Tensor level tracing is not supported by the mode: "
                  +:+ InferenceTraceModeString (mode_ (setting_ ts))])
        | TRACE_MODE_TRITON =>
            let id := trace_handle_id trace in
            let s1 := stream_begin id (streams_ ts) in
            let s2 := stream_put id (tensor_header id activity name) s1 in
            let element_count := element_count_of shape in
            let finish s :=
              (set_streams ts (stream_put id (tensor_trailer datatype shape) s),
               []) in
            match datatype with
            | TRITONSERVER_TYPE_INVALID => (set_streams ts s2, [])
            | TRITONSERVER_TYPE_BYTES =>
                let '(text, finished) :=
                  bytes_loop buffer_base byte_size element_count
                    (Z.to_nat element_count) 0 0 in
                let s3 := stream_put id text s2 in
                if finished then finish s3 else (set_streams ts s3, [])
            | TRITONSERVER_TYPE_FP16 | TRITONSERVER_TYPE_BF16 => finish s2
            | _ =>
                finish
                  (stream_put id
                     (fixed_loop datatype buffer_base element_count
                        (Z.to_nat element_count) 0)
                     s2)
            end
        end
    end.

End Tensor.

(** ** Sink *)

(** [TraceManager::TraceFile]: [trace_file_] is the stream of the main
    file, [index_] the counter of indexed files. *)
Record TraceFile := {
  file_name_ : string;
  index_ : Z;
  first_write_ : bool;
  trace_file_ : sstream
}.

(** Modelled from the spec: the constructor of [TraceFile] is in tracer.h,
    which is not part of the sources at hand.  The specification: a sink starts
    unopened, and indexed files are numbered path.0, path.1, ... *)
Definition TraceFile_new (file_name : string) : TraceFile :=
  {| file_name_ := file_name; index_ := 0; first_write_ := true;
     trace_file_ := sstream_empty |}.

(** [TraceFile::SaveTraces].  [fs] holds the content of the files written
    and closed so far; [trace_stream] is the content of the stream whose
    buffer is inserted.  Streams do not throw unless asked to, so the two
    handlers have nothing to catch. *)
Definition SaveTraces (f : TraceFile) (fs : gmap string string)
    (trace_stream : string) (to_index_file : bool)
  : TraceFile * gmap string string :=
  if to_index_file then
    let file_name := file_name_ f +:+ "." +:+ dec (index_ f) in
    let file_stream :=
      put (put_rdbuf (put sstream_empty "[") trace_stream) "]" in
    ({| file_name_ := file_name_ f; index_ := index_ f + 1;
        first_write_ := first_write_ f; trace_file_ := trace_file_ f |},
     <[file_name := sbuf file_stream]> fs)
  else
    let opened :=
      if first_write_ f then put (trace_file_ f) "["
      else put (trace_file_ f) "," in
    ({| file_name_ := file_name_ f; index_ := index_ f;
        first_write_ := false; trace_file_ := put_rdbuf opened trace_stream |},
     fs).

(** [TraceFile::~TraceFile]: the closing bracket, after which the main file
    holds what its stream received. *)
Definition TraceFile_destroy (f : TraceFile) (fs : gmap string string)
  : gmap string string :=
  if first_write_ f then fs
  else <[file_name_ f := sbuf (put (trace_file_ f) "]")]> fs.

(** In-place update of the collection state of a setting. *)
Definition set_collecting (s : TraceSetting) (collected sample_in_stream : Z)
    (trace_stream : sstream) : TraceSetting :=
  {| level_ := level_ s; rate_ := rate_ s; count_ := count_ s;
     log_frequency_ := log_frequency_ s; file_ := file_ s; mode_ := mode_ s;
     config_map_ := config_map_ s;
     level_specified_ := level_specified_ s;
     rate_specified_ := rate_specified_ s;
     count_specified_ := count_specified_ s;
     log_frequency_specified_ := log_frequency_specified_ s;
     filepath_specified_ := filepath_specified_ s;
     mode_specified_ := mode_specified_ s;
     config_map_specified_ := config_map_specified_ s;
     invalid_reason_ := invalid_reason_ s;
     sample_ := sample_ s; created_ := created_ s; collected_ := collected;
     sample_in_stream_ := sample_in_stream;
     trace_stream_ := trace_stream |}.

(** What tracer.cc takes from the C++ library without fixing it: the order
    in which a range-based [for] walks the [std::unordered_map] of the
    streams of a trace.  It is some order of the entries; which one is up to
    the library. *)
Class ContainerApi := {
  iteration_order : gmap Z string -> list (Z * string);
  iteration_order_entries :
    forall streams, iteration_order streams ≡ₚ map_to_list streams
}.

(** The loop of [WriteTrace] over the streams of one trace, in the order the
    container enumerates them. *)
Fixpoint write_streams (os : sstream) (streams : list (Z * string)) : sstream :=
  match streams with
  | [] => os
  | (_, content) :: rest =>
      let os1 := put_rdbuf os content in
      write_streams (match rest with [] => os1 | _ => put os1 "," end) rest
  end.

(** The test that decides whether [WriteTrace] saves to a file, on the
    counters as they are after the increments. *)
Definition flush_due (s : TraceSetting) (collected sample_in_stream : Z) : bool :=
  ((count_ s =? 0) && (collected =? sample_ s))
  || (negb (log_frequency_ s =? 0) && (log_frequency_ s <=? sample_in_stream)).

Section Collection.
Context {container : ContainerApi}.

(** [TraceSetting::WriteTrace]: [f] is the [TraceFile] the setting points
    to. *)
Definition WriteTrace (s : TraceSetting) (streams : gmap Z string)
    (f : TraceFile) (fs : gmap string string)
  : TraceSetting * TraceFile * gmap string string :=
  let os0 :=
    if negb (sample_in_stream_ s =? 0) then put (trace_stream_ s) ","
    else trace_stream_ s in
  let sample_in_stream := sample_in_stream_ s + 1 in
  let collected := collected_ s + 1 in
  let os1 := write_streams os0 (iteration_order streams) in
  if flush_due s collected sample_in_stream then
    let '(f', fs') := SaveTraces f fs (sbuf os1) true in
    (set_collecting s collected 0 sstream_empty, f', fs')
  else (set_collecting s collected sample_in_stream os1, f, fs).

End Collection.

(** [TraceSetting::~TraceSetting] *)
Definition TraceSetting_destroy (s : TraceSetting) (f : TraceFile)
    (fs : gmap string string) : TraceFile * gmap string string :=
  if bool_decide (mode_ s = TRACE_MODE_TRITON)
     && negb (sample_in_stream_ s =? 0)
  then SaveTraces f fs (sbuf (trace_stream_ s)) (negb (log_frequency_ s =? 0))
  else (f, fs).

(** [Trace::~Trace]; [s] is the live state of the setting [setting_] points
    to.  In the local mode the streams go to [WriteTrace]; closing a span
    touches no file. *)
Definition Trace_destroy {container : ContainerApi} (ts : Trace)
    (s : TraceSetting) (f : TraceFile) (fs : gmap string string)
  : TraceSetting * TraceFile * gmap string string :=
  match mode_ (setting_ ts) with
  | TRACE_MODE_TRITON => WriteTrace s (streams_ ts) f fs
  | TRACE_MODE_OPENTELEMETRY => (s, f, fs)
  end.

(** ** Runs of a setting and of a sink *)

(** What a trace receives between its creation and its release: the two
    callbacks of the engine and the timestamps the front end captures. *)
Inductive SessionEvent :=
| EvActivity (trace : InferenceTrace)
    (activity : TRITONSERVER_InferenceTraceActivity) (timestamp_ns : Z)
| EvTimestamp (name : string) (timestamp_ns : Z)
| EvTensor (trace : InferenceTrace)
    (activity : TRITONSERVER_InferenceTraceActivity) (name : string)
    (datatype : TRITONSERVER_DataType) (base : list byte) (byte_size : Z)
    (shape : list Z) (memory_type : TRITONSERVER_MemoryType)
    (host_copy : option (list byte)).

(** What happens to a setting while it is installed: a sampling call (of
    which a run keeps the counters), or the life of one of its traces
    (created with [trace_id], fed with [events], released). *)
Inductive SettingOp :=
| OpSample (engine : option Z)
| OpTrace (trace_id : Z) (events : list SessionEvent).

Section Runs.
Context {engine : EngineApi} {container : ContainerApi}.

Definition record_event (ts : Trace) (ev : SessionEvent) : Trace :=
  match ev with
  | EvActivity trace activity timestamp_ns =>
      TraceActivity trace activity timestamp_ns ts
  | EvTimestamp name timestamp_ns => CaptureTimestamp ts name timestamp_ns
  | EvTensor trace activity name datatype base byte_size shape memory_type
      host_copy =>
      fst (TraceTensorActivity trace activity name datatype base byte_size
             shape memory_type host_copy ts)
  end.

Definition record_events (ts : Trace) (events : list SessionEvent) : Trace :=
  fold_left record_event events ts.

Definition run_op (st : TraceSetting * TraceFile * gmap string string)
    (op : SettingOp) : TraceSetting * TraceFile * gmap string string :=
  let '(s, f, fs) := st in
  match op with
  | OpSample engine => (fst (TraceSetting_SampleTrace s engine), f, fs)
  | OpTrace trace_id events =>
      Trace_destroy (record_events (Trace_new s trace_id) events) s f fs
  end.

(** A setting from its installation to its destruction. *)
Definition setting_lifetime (s : TraceSetting) (ops : list SettingOp)
    (f : TraceFile) (fs : gmap string string)
  : TraceFile * gmap string string :=
  let '(s', f', fs') := fold_left run_op ops (s, f, fs) in
  TraceSetting_destroy s' f' fs'.

(** A sink shared by a succession of settings, until it is closed. *)
Fixpoint sink_run (settings : list (TraceSetting * list SettingOp))
    (f : TraceFile) (fs : gmap string string)
  : TraceFile * gmap string string :=
  match settings with
  | [] => (f, fs)
  | (s, ops) :: rest =>
      let '(f', fs') := setting_lifetime s ops f fs in sink_run rest f' fs'
  end.

Definition sink_lifetime (file_name : string)
    (settings : list (TraceSetting * list SettingOp)) : gmap string string :=
  let '(f, fs) := sink_run settings (TraceFile_new file_name) ∅ in
  TraceFile_destroy f fs.

End Runs.

(** ** JSON text *)

(** A recogniser of JSON texts (RFC 8259) in ASCII, one character at a
    time.  Its state is the arrays and objects that are open, innermost
    first, and what may come next. *)
Inductive Container := InArray | InObject.

(** Inside a string: plain characters, after a backslash, or inside the
    four hexadecimal digits of a unicode escape. *)
Inductive StringMode := Chars | Escape | Unicode (digits : nat).

Inductive JsonMode :=
| ExpectValue (may_close : bool)
| ExpectKey (may_close : bool)
| ExpectColon
| AfterValue
| InsideString (key : bool) (sm : StringMode)
| NumMinus | NumZero | NumInt | NumDot | NumFrac | NumE | NumESign | NumExp
| InLiteral (rest : string).

Definition JsonState : Type := list Container * JsonMode.

Definition is_char (c : ascii) (text : string) : bool :=
  match text with
  | String d _ => Ascii.eqb c d
  | EmptyString => false
  end.

Definition is_space (c : ascii) : bool :=
  let n := N_of_ascii c in
  ((n =? 32) || (n =? 9) || (n =? 10) || (n =? 13))%N.

Definition is_digit (c : ascii) : bool :=
  let n := N_of_ascii c in ((48 <=? n) && (n <=? 57))%N.

Definition is_hex_digit (c : ascii) : bool :=
  let n := N_of_ascii c in
  (((48 <=? n) && (n <=? 57)) || ((65 <=? n) && (n <=? 70))
   || ((97 <=? n) && (n <=? 102)))%N.

(** A character that may stand in a string as it is: printable ASCII other
    than the double quote and the backslash. *)
Definition is_string_char (c : ascii) : bool :=
  let n := N_of_ascii c in
  ((32 <=? n) && (n <? 128) && negb (n =? 34) && negb (n =? 92))%N.

(** The characters that may follow a backslash, the [u] of a unicode escape
    apart. *)
Definition is_escape (c : ascii) : bool :=
  is_char c quote || is_char c backslash || is_char c "/" || is_char c "b"
  || is_char c "f" || is_char c "n" || is_char c "r" || is_char c "t".

Definition is_exponent (c : ascii) : bool := is_char c "e" || is_char c "E".

(** One character inside a string: [Some None] for the closing quote. *)
Definition string_step (sm : StringMode) (c : ascii)
  : option (option StringMode) :=
  match sm with
  | Chars =>
      if is_char c quote then Some None
      else if is_char c backslash then Some (Some Escape)
      else if is_string_char c then Some (Some Chars)
      else None
  | Escape =>
      if is_escape c then Some (Some Chars)
      else if is_char c "u" then Some (Some (Unicode 4))
      else None
  | Unicode digits =>
      if is_hex_digit c then
        match digits with
        | S (S n) => Some (Some (Unicode (S n)))
        | _ => Some (Some Chars)
        end
      else None
  end.

(** One character after a complete value: a separator or the closer of the
    innermost container. *)
Definition after_value_step (stack : list Container) (c : ascii)
  : option JsonState :=
  if is_space c then Some (stack, AfterValue)
  else
    match stack with
    | [] => None
    | InArray :: below =>
        if is_char c "," then Some (stack, ExpectValue false)
        else if is_char c "]" then Some (below, AfterValue)
        else None
    | InObject :: below =>
        if is_char c "," then Some (stack, ExpectKey false)
        else if is_char c "}" then Some (below, AfterValue)
        else None
    end.

(** One character where a value is expected. *)
Definition value_step (stack : list Container) (may_close : bool) (c : ascii)
  : option JsonState :=
  if is_space c then Some (stack, ExpectValue may_close)
  else if is_char c "[" then Some (InArray :: stack, ExpectValue true)
  else if is_char c "{" then Some (InObject :: stack, ExpectKey true)
  else if is_char c quote then Some (stack, InsideString false Chars)
  else if is_char c "-" then Some (stack, NumMinus)
  else if is_char c "0" then Some (stack, NumZero)
  else if is_digit c then Some (stack, NumInt)
  else if is_char c "t" then Some (stack, InLiteral "rue")
  else if is_char c "f" then Some (stack, InLiteral "alse")
  else if is_char c "n" then Some (stack, InLiteral "ull")
  else if may_close && is_char c "]" then
    match stack with
    | InArray :: below => Some (below, AfterValue)
    | _ => None
    end
  else None.

(** One character inside a number; a number ends where a character comes
    that cannot continue it, and that character is read as one after a
    value. *)
Definition number_step (stack : list Container) (mode : JsonMode) (c : ascii)
  : option JsonState :=
  match mode with
  | NumMinus =>
      if is_char c "0" then Some (stack, NumZero)
      else if is_digit c then Some (stack, NumInt)
      else None
  | NumZero =>
      if is_char c "." then Some (stack, NumDot)
      else if is_exponent c then Some (stack, NumE)
      else after_value_step stack c
  | NumInt =>
      if is_digit c then Some (stack, NumInt)
      else if is_char c "." then Some (stack, NumDot)
      else if is_exponent c then Some (stack, NumE)
      else after_value_step stack c
  | NumDot => if is_digit c then Some (stack, NumFrac) else None
  | NumFrac =>
      if is_digit c then Some (stack, NumFrac)
      else if is_exponent c then Some (stack, NumE)
      else after_value_step stack c
  | NumE =>
      if is_char c "+" || is_char c "-" then Some (stack, NumESign)
      else if is_digit c then Some (stack, NumExp)
      else None
  | NumESign => if is_digit c then Some (stack, NumExp) else None
  | NumExp =>
      if is_digit c then Some (stack, NumExp) else after_value_step stack c
  | _ => None
  end.

Definition json_step (st : JsonState) (c : ascii) : option JsonState :=
  let '(stack, mode) := st in
  match mode with
  | ExpectValue may_close => value_step stack may_close c
  | ExpectKey may_close =>
      if is_space c then Some (stack, ExpectKey may_close)
      else if is_char c quote then Some (stack, InsideString true Chars)
      else if may_close && is_char c "}" then
        match stack with
        | InObject :: below => Some (below, AfterValue)
        | _ => None
        end
      else None
  | ExpectColon =>
      if is_space c then Some (stack, ExpectColon)
      else if is_char c ":" then Some (stack, ExpectValue false)
      else None
  | AfterValue => after_value_step stack c
  | InsideString key sm =>
      match string_step sm c with
      | Some (Some sm') => Some (stack, InsideString key sm')
      | Some None => Some (stack, if key then ExpectColon else AfterValue)
      | None => None
      end
  | InLiteral rest =>
      match rest with
      | String d rest' =>
          if Ascii.eqb c d
          then Some (stack,
                     match rest' with
                     | EmptyString => AfterValue
                     | _ => InLiteral rest'
                     end)
          else None
      | EmptyString => None
      end
  | _ => number_step stack mode c
  end.

Fixpoint json_run (text : string) (st : JsonState) : option JsonState :=
  match text with
  | EmptyString => Some st
  | String c rest =>
      match json_step st c with
      | Some st' => json_run rest st'
      | None => None
      end
  end.



(** Text that can stand between two quotes as it is. *)
Fixpoint plain (text : string) : bool :=
  match text with
  | EmptyString => true
  | String c rest => is_string_char c && plain rest
  end.

(** The characters of a string, escapes included, from inside the string. *)
Fixpoint string_run (text : string) (sm : StringMode) : option StringMode :=
  match text with
  | EmptyString => Some sm
  | String c rest =>
      match string_step sm c with
      | Some (Some sm') => string_run rest sm'
      | _ => None
      end
  end.

(** Text that can stand between two quotes: plain characters and complete
    escapes. *)
Definition string_body (text : string) : bool :=
  match string_run text Chars with
  | Some Chars => true
  | _ => false
  end.

Section EventConditions.
Context {engine : EngineApi}.

(** The buffer [TraceTensorActivity] reads: the host copy of a device
    buffer, the buffer itself otherwise. *)
Definition tensor_buffer (memory_type : TRITONSERVER_MemoryType)
    (base : list byte) (host_copy : option (list byte)) : option (list byte) :=
  if bool_decide (memory_type = TRITONSERVER_MEMORY_GPU)
  then host_copy else Some base.

(** The data a tensor event writes when its datatype switch runs to the
    end. *)
Definition tensor_data (datatype : TRITONSERVER_DataType)
    (buffer_base : list byte) (byte_size : Z) (shape : list Z)
  : option string :=
  let element_count := element_count_of shape in
  match datatype with
  | TRITONSERVER_TYPE_INVALID => None
  | TRITONSERVER_TYPE_BYTES =>
      let '(text, finished) :=
        bytes_loop buffer_base byte_size element_count
          (Z.to_nat element_count) 0 0 in
      if finished then Some text else None
  | TRITONSERVER_TYPE_FP16 | TRITONSERVER_TYPE_BF16 => Some ""
  | _ =>
      Some (fixed_loop datatype buffer_base element_count
              (Z.to_nat element_count) 0)
  end.




End EventConditions.

(** ** Batches *)





(** ** Invariants of the local export *)







(** ** The claim about the first flush trigger *)


(** ** Concrete inputs used by the examples *)

(** A global setting as the server would start with: timestamps, every
    request sampled, a budget of ten traces, one continuous local file. *)
Definition example_manager : TraceManager :=
  TraceManager_new TRITONSERVER_TRACE_LEVEL_TIMESTAMPS 1 10 0 "/tmp/t"
    TRACE_MODE_TRITON [].

Definition update_rate (rate : Z) : NewSetting :=
  {| clear_level_ := false; new_level_ := None;
     clear_rate_ := false; new_rate_ := Some rate;
     clear_count_ := false; new_count_ := None;
     clear_log_frequency_ := false; new_log_frequency_ := None;
     clear_filepath_ := false; new_filepath_ := None;
     clear_mode_ := false; new_mode_ := None;
     new_config_map_ := None |}.

Definition update_clear_rate : NewSetting :=
  {| clear_level_ := false; new_level_ := None;
     clear_rate_ := true; new_rate_ := None;
     clear_count_ := false; new_count_ := None;
     clear_log_frequency_ := false; new_log_frequency_ := None;
     clear_filepath_ := false; new_filepath_ := None;
     clear_mode_ := false; new_mode_ := None;
     new_config_map_ := None |}.

Definition update_config_map (config_map : TraceConfigMap) : NewSetting :=
  {| clear_level_ := false; new_level_ := None;
     clear_rate_ := false; new_rate_ := None;
     clear_count_ := false; new_count_ := None;
     clear_log_frequency_ := false; new_log_frequency_ := None;
     clear_filepath_ := false; new_filepath_ := None;
     clear_mode_ := false; new_mode_ := None;
     new_config_map_ := Some config_map |}.

(** A local-mode setting with the given rate, budget and log frequency. *)
Definition example_setting (rate count log_frequency : Z) : TraceSetting :=
  TraceSetting_new TRITONSERVER_TRACE_LEVEL_TIMESTAMPS rate count log_frequency
    "/tmp/t" TRACE_MODE_TRITON [] false false false false false false false.

Definition update_level (level : TRITONSERVER_InferenceTraceLevel) : NewSetting :=
  {| clear_level_ := false; new_level_ := Some level;
     clear_rate_ := false; new_rate_ := None;
     clear_count_ := false; new_count_ := None;
     clear_log_frequency_ := false; new_log_frequency_ := None;
     clear_filepath_ := false; new_filepath_ := None;
     clear_mode_ := false; new_mode_ := None;
     new_config_map_ := None |}.

(** An update that sets the five sampling fields, with the given rate. *)
Definition update_all_fields (rate : Z) : NewSetting :=
  {| clear_level_ := false;
     new_level_ := Some TRITONSERVER_TRACE_LEVEL_TIMESTAMPS;
     clear_rate_ := false; new_rate_ := Some rate;
     clear_count_ := false; new_count_ := Some 3;
     clear_log_frequency_ := false; new_log_frequency_ := Some 0;
     clear_filepath_ := false; new_filepath_ := Some "/tmp/x";
     clear_mode_ := false; new_mode_ := None;
     new_config_map_ := None |}.

(** Names as the engine could report them. *)
Definition example_engine : EngineApi :=
  {| TRITONSERVER_InferenceTraceActivityString activity :=
       match activity with
       | TRITONSERVER_TRACE_REQUEST_START => "REQUEST_START"
       | TRITONSERVER_TRACE_TENSOR_QUEUE_INPUT => "TENSOR_QUEUE_INPUT"
       | TRITONSERVER_TRACE_TENSOR_BACKEND_INPUT => "TENSOR_BACKEND_INPUT"
       | TRITONSERVER_TRACE_TENSOR_BACKEND_OUTPUT => "TENSOR_BACKEND_OUTPUT"
       | TRITONSERVER_TRACE_OTHER _ => "ACTIVITY"
       end;
     TRITONSERVER_DataTypeString datatype :=
       match datatype with
       | TRITONSERVER_TYPE_BYTES => "BYTES"
       | TRITONSERVER_TYPE_INVALID => "<invalid>"
       | _ => "TYPE"
       end;
     float_text _ _ := "0" |}.

(** A library that walks the streams in the reverse of the order in which
    the finite map lists them. *)
Definition example_container : ContainerApi :=
  {| iteration_order streams := reverse (map_to_list streams);
     iteration_order_entries streams := reverse_Permutation (map_to_list streams) |}.

(** The root trace handle of a request to model "m". *)
Definition example_handle (id : Z) (request_id : string) : InferenceTrace :=
  {| trace_handle_id := id; trace_handle_parent_id := 0;
     trace_handle_model_name := "m"; trace_handle_model_version := 1;
     trace_handle_request_id := request_id |}.

(** A BYTES tensor of two elements whose buffer ends inside the second one:
    the element "ab", then a length prefix of 5 followed by a single byte. *)
Definition truncated_bytes : list byte :=
  [x02; x00; x00; x00; x61; x62; x05; x00; x00; x00; x63]%byte.



(** The life of a trace with a sub-trace: the start of request [id], a
    BYTES tensor with the elements "ab" and "c" for it, and a timestamp
    and an integer tensor for the sub-trace [id + 1]. *)
Definition tensor_trace (id : Z) : SettingOp :=
  OpTrace id
    [EvActivity (example_handle id "r") TRITONSERVER_TRACE_REQUEST_START 100;
     EvTensor (example_handle id "r") TRITONSERVER_TRACE_TENSOR_QUEUE_INPUT "x"
       TRITONSERVER_TYPE_BYTES
       [x02; x00; x00; x00; x61; x62; x01; x00; x00; x00; x63]%byte 11 [2]
       TRITONSERVER_MEMORY_CPU None;
     EvActivity (example_handle (id + 1) "") (TRITONSERVER_TRACE_OTHER 3) 150;
     EvTensor (example_handle (id + 1) "")
       TRITONSERVER_TRACE_TENSOR_BACKEND_OUTPUT "y" TRITONSERVER_TYPE_INT16
       [xfe; xff; x2c; x01]%byte 4 [2] TRITONSERVER_MEMORY_CPU None;
     EvTimestamp "HTTP_SEND_END" 200].




(** One trace that is released before any event reached it, flushed at
    once. *)
Definition silent_run : list (TraceSetting * list SettingOp) :=
  [(example_setting 1 10 1, [OpSample (Some 7); OpTrace 7 []])].

(** The streams of a trace that saw the start of request 7. *)
Definition example_streams : gmap Z string :=
  streams_
    (record_events (engine := example_engine)
       (Trace_new (example_setting 1 1 0) 7)
       [EvActivity (example_handle 7 "") TRITONSERVER_TRACE_REQUEST_START 100]).



(** * Further parts of tracer.cc *)

(** ** Policy store *)

(** The outcome of the two passes for one field, as a table: a cleared field
    is unspecified and has the fallback value; otherwise a new value is
    taken; otherwise the field stays as the current setting has it,
    specified with its value or unspecified with the fallback value. *)
Definition merged_field {A} (clear : bool) (new_value : option A)
    (current : option TraceSetting) (flag : TraceSetting -> bool)
    (get : TraceSetting -> A) (fallback lts : TraceSetting) : Prop :=
  if clear then flag lts = false /\ get lts = get fallback
  else
    match new_value with
    | Some v => flag lts = true /\ get lts = v
    | None =>
        match current with
        | Some c =>
            flag lts = flag c
            /\ get lts = (if flag c then get c else get fallback)
        | None => flag lts = false /\ get lts = get fallback
        end
    end.

(** The setting an update works on and the layer it falls back to. *)
Definition current_of (m : TraceManager) (model_name : string)
  : option TraceSetting :=
  if is_global model_name then Some (global_setting_ m)
  else model_settings_ m !! model_name.

Definition fallback_of (m : TraceManager) (model_name : string) : TraceSetting :=
  if is_global model_name then global_default_ m else global_setting_ m.

(** The five fields that decide whether a model mirrors the global
    setting. *)
Definition all_five_specified (s : TraceSetting) : bool :=
  level_specified_ s && rate_specified_ s && count_specified_ s
  && log_frequency_specified_ s && filepath_specified_ s.

(** [s] has the value of [g] in each of the five fields it leaves
    unspecified. *)
Definition mirrors (s g : TraceSetting) : Prop :=
  (level_specified_ s = false -> level_ s = level_ g)
  /\ (rate_specified_ s = false -> rate_ s = rate_ g)
  /\ (count_specified_ s = false -> count_ s = count_ g)
  /\ (log_frequency_specified_ s = false -> log_frequency_ s = log_frequency_ g)
  /\ (filepath_specified_ s = false -> file_ s = file_ g).

(** The bookkeeping the propagation of a global update relies on: the empty
    name is not in the set, and a model whose setting leaves one of the five
    fields unspecified is. *)
Definition mirroring_tracked (m : TraceManager) : Prop :=
("" ∉ fallback_used_models_ m)
  /\ forall model_name s,
       model_settings_ m !! model_name = Some s ->
       all_five_specified s = false ->
       model_name ∈ fallback_used_models_ m.

(** A setting that passes the check of an update: valid, or tracing
    disabled. *)
Definition accepted (s : TraceSetting) : Prop :=
  Valid s = true \/ level_ s = TRITONSERVER_TRACE_LEVEL_DISABLED.

Definition store_accepted (m : TraceManager) : Prop :=
  accepted (global_setting_ m)
  /\ map_Forall (λ _ s, accepted s) (model_settings_ m).

(** Every model setting mirrors the global setting. *)
Definition all_mirror (m : TraceManager) : Prop :=
  forall model_name s,
    model_settings_ m !! model_name = Some s -> mirrors s (global_setting_ m).

(** The manager after a run of updates that all succeed. *)
Fixpoint after_updates (m : TraceManager) (updates : list (string * NewSetting))
  : option TraceManager :=
  match updates with
  | [] => Some m
  | (model_name, new_setting) :: rest =>
      match UpdateTraceSetting m model_name new_setting with
      | (m', None) => after_updates m' rest
      | (_, Some _) => None
      end
  end.

(** ** Sampling through the manager *)

(** What [TraceManager::SampleTrace] does with the end of the call of the
    setting: a trace that was created is given the setting. *)
Definition with_setting (s : TraceSetting) (ts : CallEnd (option Z))
  : CallEnd (option Trace) :=
  match ts with
  | Returns (Some id) => Returns (Some (Trace_new s id))
  | Returns None => Returns None
  | Faults => Faults
  end.

(** [TraceManager::SampleTrace]: the setting is looked up as in
    [GetTraceSetting], sampled, and the new trace is given that setting.  The
    setting is shared with the manager, so the counters the call moved are
    those of the stored setting. *)
Definition TraceManager_SampleTrace (m : TraceManager) (model_name : string)
    (engine : option Z) : TraceManager * CallEnd (option Trace) :=
  match model_settings_ m !! model_name with
  | Some trace_setting =>
      let '(s', ts) := TraceSetting_SampleTrace trace_setting engine in
      ({| global_default_ := global_default_ m;
          global_setting_ := global_setting_ m;
          model_settings_ := <[model_name := s']> (model_settings_ m);
          fallback_used_models_ := fallback_used_models_ m |},
       with_setting s' ts)
  | None =>
      let '(s', ts) := TraceSetting_SampleTrace (global_setting_ m) engine in
      ({| global_default_ := global_default_ m;
          global_setting_ := s';
          model_settings_ := model_settings_ m;
          fallback_used_models_ := fallback_used_models_ m |},
       with_setting s' ts)
  end.

(** The fields of a setting that an update decides. *)
Definition same_configuration (s s' : TraceSetting) : Prop :=
  level_ s' = level_ s /\ rate_ s' = rate_ s
  /\ log_frequency_ s' = log_frequency_ s /\ file_ s' = file_ s
  /\ mode_ s' = mode_ s /\ config_map_ s' = config_map_ s
  /\ level_specified_ s' = level_specified_ s
  /\ rate_specified_ s' = rate_specified_ s
  /\ count_specified_ s' = count_specified_ s
  /\ log_frequency_specified_ s' = log_frequency_specified_ s
  /\ filepath_specified_ s' = filepath_specified_ s
  /\ mode_specified_ s' = mode_specified_ s
  /\ config_map_specified_ s' = config_map_specified_ s.

(** ** What a trace holds *)

(** Texts behind a first one, each led by a comma. *)
Fixpoint with_commas (texts : list string) : string :=
  match texts with
  | [] => ""
  | text :: rest => "," +:+ text +:+ with_commas rest
  end.

(** The texts separated by commas; no stream without a text. *)
Definition comma_joined (texts : list string) : option string :=
  match texts with
  | [] => None
  | text :: rest => Some (text +:+ with_commas rest)
  end.

(** A stream, or the lack of one, after more texts were appended. *)
Definition extended (old : option string) (texts : list string)
  : option string :=
  match old with
  | None => comma_joined texts
  | Some content => Some (content +:+ with_commas texts)
  end.

Section SessionText.
Context {engine : EngineApi}.

(** The text of a tensor event that is not dropped: the header, the data as
    far as the switch over the datatype gets, and the trailer when the
    switch runs to its end. *)
Definition tensor_text (id : Z)
    (activity : TRITONSERVER_InferenceTraceActivity) (name : string)
    (datatype : TRITONSERVER_DataType) (buffer_base : list byte)
    (byte_size : Z) (shape : list Z) : string :=
  let element_count := element_count_of shape in
  tensor_header id activity name
  +:+ match datatype with
      | TRITONSERVER_TYPE_INVALID => ""
      | TRITONSERVER_TYPE_BYTES =>
          let '(text, finished) :=
            bytes_loop buffer_base byte_size element_count
              (Z.to_nat element_count) 0 0 in
          text +:+ (if finished then tensor_trailer datatype shape else "")
      | TRITONSERVER_TYPE_FP16 | TRITONSERVER_TYPE_BF16 =>
          tensor_trailer datatype shape
      | _ =>
          fixed_loop datatype buffer_base element_count
            (Z.to_nat element_count) 0
          +:+ tensor_trailer datatype shape
      end.

(** The trace id an event writes to and the text it writes there, if it
    writes at all, for a trace with id [trace_id] of setting [s]. *)
Definition event_output (s : TraceSetting) (trace_id : Z) (ev : SessionEvent)
  : option (Z * string) :=
  match mode_ s with
  | TRACE_MODE_OPENTELEMETRY => None
  | TRACE_MODE_TRITON =>
      match ev with
      | EvActivity trace activity timestamp_ns =>
          Some (trace_handle_id trace,
                (if bool_decide (activity = TRITONSERVER_TRACE_REQUEST_START)
                 then request_fragment trace else "")
                +:+ timestamp_fragment (trace_handle_id trace)
                      (TRITONSERVER_InferenceTraceActivityString activity)
                      timestamp_ns)
      | EvTimestamp name timestamp_ns =>
          if negb (Z.land (level_ s) TRITONSERVER_TRACE_LEVEL_TIMESTAMPS =? 0)
          then Some (trace_id, timestamp_fragment trace_id name timestamp_ns)
          else None
      | EvTensor trace activity name datatype base byte_size shape
          memory_type host_copy =>
          if tensor_activity_supported activity then
            match tensor_buffer memory_type base host_copy with
            | Some buffer_base =>
                Some (trace_handle_id trace,
                      tensor_text (trace_handle_id trace) activity name
                        datatype buffer_base byte_size shape)
            | None => None
            end
          else None
      end
  end.

(** The texts the events write to the stream of [id], in order. *)
Definition texts_for (s : TraceSetting) (trace_id id : Z)
    (events : list SessionEvent) : list string :=
  omap (λ ev, match event_output s trace_id ev with
              | Some (i, text) => if bool_decide (i = id) then Some text else None
              | None => None
              end) events.

End SessionText.

(** ** The payload of a BYTES tensor *)

(** The byte with the value [z] modulo 256. *)
Definition byte_of_Z (z : Z) : byte :=
  default x00%byte (Byte.of_N (Z.to_N (z mod 256))).

(** [v] in [width] bytes, least significant byte first. *)
Fixpoint le_bytes (width : nat) (v : Z) : list byte :=
  match width with
  | O => []
  | S w => byte_of_Z v :: le_bytes w (v / 256)
  end.

(** One element as the loop of TRITONSERVER_TYPE_BYTES expects it: the
    length in four bytes, then the bytes. *)
Definition encode_element (element : list byte) : list byte :=
  le_bytes 4 (Z.of_nat (List.length element)) ++ element.

Definition encode_bytes (elements : list (list byte)) : list byte :=
  concat (map encode_element elements).

(** The text of the elements: each between escaped quotes, a comma after
    all but the last. *)
Fixpoint quoted_elements (elements : list (list byte)) : string :=
  match elements with
  | [] => ""
  | element :: rest =>
      (escaped_quote +:+ String.string_of_list_byte element +:+ escaped_quote
       +:+ match rest with [] => "" | _ => "," end)
      +:+ quoted_elements rest
  end.

(** ** Integer tensors *)

Definition is_unsigned (datatype : TRITONSERVER_DataType) : bool :=
  match datatype with
  | TRITONSERVER_TYPE_UINT16 | TRITONSERVER_TYPE_UINT32
  | TRITONSERVER_TYPE_UINT64 => true
  | _ => false
  end.

Definition is_signed (datatype : TRITONSERVER_DataType) : bool :=
  match datatype with
  | TRITONSERVER_TYPE_INT16 | TRITONSERVER_TYPE_INT32
  | TRITONSERVER_TYPE_INT64 => true
  | _ => false
  end.

(** [v] is a value of the C++ type the loop of [datatype] reads. *)
Definition representable (datatype : TRITONSERVER_DataType) (v : Z) : Prop :=
  if is_unsigned datatype then 0 <= v < 2 ^ (8 * width_of datatype)
  else - 2 ^ (8 * width_of datatype - 1) <= v < 2 ^ (8 * width_of datatype - 1).

(** The values as they lie in memory: each in the width of the datatype,
    least significant byte first, negative values in two's complement. *)
Definition encode_values (datatype : TRITONSERVER_DataType) (values : list Z)
  : list byte :=
  concat (map (le_bytes (Z.to_nat (width_of datatype))) values).

(** ** Runs of the sink *)

(** The sink after the batches were saved to the main file, in order. *)
Definition save_batches (st : TraceFile * gmap string string)
    (batches : list string) : TraceFile * gmap string string :=
  fold_left (λ st batch, SaveTraces (fst st) (snd st) batch false) batches st.

(** A setting and its sink after the traces with the given streams were
    collected, in order. *)
Definition write_traces {container : ContainerApi}
    (st : TraceSetting * TraceFile * gmap string string)
    (traces : list (gmap Z string))
  : TraceSetting * TraceFile * gmap string string :=
  fold_left (λ st streams, WriteTrace (fst (fst st)) streams (snd (fst st)) (snd st))
    traces st.

(** * Properties *)

(** ** Validity *)

(** On a freshly constructed setting with a non-negative rate, validity is
    the same as an empty [invalid_reason_]. *)
Lemma Valid_iff_no_reason level rate count log_frequency file mode config_map
    b1 b2 b3 b4 b5 b6 b7 :
  0 <= rate ->
  let s := TraceSetting_new level rate count log_frequency file mode config_map
             b1 b2 b3 b4 b5 b6 b7 in
  Valid s = true <-> invalid_reason_ s = "".
Proof.
  intros Hrate s. unfold Valid, configured, exhausted, s, TraceSetting_new; simpl.
  rewrite andb_false_r, andb_true_r.
  destruct (level =? TRITONSERVER_TRACE_LEVEL_DISABLED) eqn:Hl; simpl.
  { split; discriminate. }
  destruct (rate =? 0) eqn:Hr; simpl.
  { apply Z.eqb_eq in Hr. subst rate. simpl. split; discriminate. }
  apply Z.eqb_neq in Hr.
  replace (0 <? rate) with true by (symmetry; apply Z.ltb_lt; lia).
  simpl. destruct (bool_decide (mode = TRACE_MODE_TRITON)); simpl.
  - destruct (String.eqb file ""); simpl; split; (discriminate || reflexivity).
  - split; reflexivity.
Qed.

(** Sampling changes counters only. *)
Lemma configured_set_sampling s a b c :
  configured (set_sampling s a b c) = configured s.
Proof. reflexivity. Qed.

Lemma Valid_configured s : Valid s = true -> configured s = true.
Proof. unfold Valid. intros Hv. apply andb_true_iff in Hv. tauto. Qed.

Lemma Valid_not_exhausted s : Valid s = true -> exhausted s = false.
Proof.
  unfold Valid. intros Hv. apply andb_true_iff in Hv as [_ Hv].
  apply negb_true_iff, Hv.
Qed.



Lemma sample_decision_rate s : rate_ (fst (sample_decision s)) = rate_ s.
Proof.
  unfold sample_decision. destruct (Valid s); simpl; [|reflexivity].
  destruct (_ && _); reflexivity.
Qed.

Lemma sample_decision_valid s :
  Valid s = true ->
  sample_ (fst (sample_decision s)) = sample_ s + 1
  /\ snd (sample_decision s) = ((sample_ s + 1) mod rate_ s =? 0).
Proof.
  intros Hv. unfold sample_decision. rewrite Hv; simpl.
  destruct (_ && _); simpl; split; reflexivity.
Qed.

Lemma Valid_rate_pos s : Valid s = true -> 0 < rate_ s.
Proof.
  intros Hv. apply Valid_configured in Hv. unfold configured in Hv.
  apply andb_true_iff in Hv as [Hv _]. apply andb_true_iff in Hv as [_ Hv].
  apply Z.ltb_lt. exact Hv.
Qed.

(** The budget after the locked block of a valid setting. *)
Lemma sample_decision_budget s :
  Valid s = true ->
  let s' := fst (sample_decision s) in
  let d := snd (sample_decision s) in
  configured s' = true
  /\ (d = true /\ 0 < count_ s ->
      count_ s' = count_ s - 1 /\ created_ s' = created_ s + 1)
  /\ (d = false \/ count_ s <= 0 ->
      count_ s' = count_ s /\ created_ s' = created_ s).
Proof.
  intros Hv. pose proof (Valid_configured s Hv) as Hc.
  unfold sample_decision. rewrite Hv. simpl.
  destruct ((sample_ s + 1) mod rate_ s =? 0) eqn:Hd;
    destruct (Z.ltb_spec 0 (count_ s)) as [Hb|Hb]; simpl;
    (split; [exact Hc|]); split;
    intros Hcase; try (split; reflexivity);
    try (destruct Hcase as [Hcase|Hcase]; (discriminate || lia));
    try (destruct Hcase; (discriminate || lia)).
Qed.

(** A setting without a budget stays valid. *)
Lemma unlimited_stays_valid s :
  Valid s = true -> count_ s <= 0 ->
  Valid (fst (sample_decision s)) = true
  /\ count_ (fst (sample_decision s)) <= 0.
Proof.
  intros Hv Hb. pose proof (Valid_not_exhausted s Hv) as Hx.
  destruct (sample_decision_budget s Hv) as (Hc & _ & Hkeep).
  destruct (Hkeep (or_intror Hb)) as [Hcount Hcreated].
  split; [|lia]. unfold Valid. rewrite Hc. cbn [andb].
  unfold exhausted in *. rewrite Hcount, Hcreated, Hx. reflexivity.
Qed.

(** ** Sampling arithmetic *)

Lemma div_succ a r :
  0 < r -> 0 <= a ->
  (a + 1) / r = a / r + (if (a + 1) mod r =? 0 then 1 else 0).
Proof.
  intros Hr Ha.
  pose proof (Z.div_mod a r ltac:(lia)) as Hd.
  pose proof (Z.mod_pos_bound a r Hr) as Hb.
  pose proof (Z.div_mod (a + 1) r ltac:(lia)) as Hd1.
  pose proof (Z.mod_pos_bound (a + 1) r Hr) as Hb1.
  destruct ((a + 1) mod r =? 0) eqn:E.
  - apply Z.eqb_eq in E. nia.
  - apply Z.eqb_neq in E. nia.
Qed.

Lemma count_true_cons b l :
  count_true (b :: l) = (if b then 1 else 0) + count_true l.
Proof.
  unfold count_true. rewrite filter_cons.
  destruct b; simpl.
  - destruct (decide (true = true)); [|congruence]. simpl length. lia.
  - destruct (decide (false = true)); [congruence|]. lia.
Qed.

(** The [k]-th decision of a valid setting without a budget looks at the
    sample counter only. *)
Lemma decisions_lookup s n k :
  Valid s = true -> count_ s <= 0 -> 0 <= sample_ s -> (k < n)%nat ->
  decisions s n !! k
  = Some ((sample_ s + Z.of_nat k + 1) mod rate_ s =? 0).
Proof.
  revert s k. induction n as [|n IH]; intros s k Hv Hb Hs Hk; [lia|].
  simpl. destruct (sample_decision s) as [s' d] eqn:E.
  pose proof (sample_decision_valid s Hv) as [Hs' Hd].
  pose proof (unlimited_stays_valid s Hv Hb) as [Hv' Hb'].
  pose proof (sample_decision_rate s) as Hr'.
  rewrite E in Hs', Hd, Hv', Hb', Hr'. cbn [fst snd] in *.
  destruct k as [|k]; simpl.
  - rewrite Hd. change (Z.of_nat 0) with 0. rewrite Z.add_0_r. reflexivity.
  - rewrite IH by (try lia; assumption).
    rewrite Hs', Hr'.
    replace (sample_ s + 1 + Z.of_nat k + 1)
      with (sample_ s + Z.of_nat (S k) + 1) by lia.
    reflexivity.
Qed.

Lemma decisions_count s n :
  Valid s = true -> count_ s <= 0 -> 0 <= sample_ s ->
  count_true (decisions s n)
  = (sample_ s + Z.of_nat n) / rate_ s - sample_ s / rate_ s.
Proof.
  revert s. induction n as [|n IH]; intros s Hv Hb Hs.
  - change (Z.of_nat 0) with 0. rewrite Z.add_0_r.
    unfold count_true. simpl. lia.
  - simpl. destruct (sample_decision s) as [s' d] eqn:E.
    pose proof (sample_decision_valid s Hv) as [Hs' Hd].
    pose proof (unlimited_stays_valid s Hv Hb) as [Hv' Hb'].
    pose proof (sample_decision_rate s) as Hr'.
    rewrite E in Hs', Hd, Hv', Hb', Hr'. cbn [fst snd] in *.
    rewrite count_true_cons, IH by (try lia; assumption).
    rewrite Hs', Hr', Hd.
    pose proof (div_succ (sample_ s) (rate_ s) (Valid_rate_pos s Hv) Hs) as Hdiv.
    replace (sample_ s + 1 + Z.of_nat n) with (sample_ s + Z.of_nat (S n)) by lia.
    destruct ((sample_ s + 1) mod rate_ s =? 0); lia.
Qed.

(** C2: for a valid policy with rate R and an unlimited budget, the k-th of N
    consecutive sampling opportunities yields a creation decision exactly
    when k is a multiple of R, and floor(N/R) decisions are positive. *)
Theorem sample_every_rate_th (s : TraceSetting) (N : nat) :
  Valid s = true -> count_ s <= 0 -> sample_ s = 0 ->
  (forall k : nat, (k < N)%nat ->
     decisions s N !! k = Some (bool_decide ((Z.of_nat k + 1) mod rate_ s = 0)))
  /\ count_true (decisions s N) = Z.of_nat N / rate_ s.
Proof.
  intros Hv Hb Hs. split.
  - intros k Hk. rewrite decisions_lookup by (try lia; assumption).
    rewrite Hs, Z.add_0_l. f_equal.
    destruct (Z.eqb_spec ((Z.of_nat k + 1) mod rate_ s) 0) as [E|E]; symmetry;
      [apply bool_decide_eq_true_2 | apply bool_decide_eq_false_2]; exact E.
  - rewrite decisions_count by (try lia; assumption).
    rewrite Hs, Z.add_0_l, Zdiv_0_l. lia.
Qed.

Lemma sample_every_rate_th_witness :
  count_true (decisions (example_setting 3 0 0) 10) = 3.
Proof.
  exact (proj2 (sample_every_rate_th (example_setting 3 0 0) 10
                  eq_refl ltac:(simpl; lia) eq_refl)).
Defined.

(** ** The budget *)






(** C10: when the budget is positive and the decision is to create, a
    failing allocation of the engine handle leaves the budget decremented
    and the created counter incremented, as the claim says, but the call
    does not return: the trace object it discards is destroyed with no
    setting assigned to it. *)
Theorem failed_allocation_does_not_return (s : TraceSetting) :
  0 < count_ s -> snd (sample_decision s) = true ->
  snd (TraceSetting_SampleTrace s None) = Faults
  /\ snd (TraceSetting_SampleTrace s None) <> Returns None
  /\ count_ (fst (TraceSetting_SampleTrace s None)) = count_ s - 1
  /\ created_ (fst (TraceSetting_SampleTrace s None)) = created_ s + 1.
Proof.
  intros Hc Hd.
  assert (Hv : Valid s = true).
  { unfold sample_decision in Hd. destruct (Valid s); [reflexivity|discriminate]. }
  destruct (sample_decision_budget s Hv) as (_ & Hpos & _).
  destruct (Hpos (conj Hd Hc)) as [H1 H2].
  unfold TraceSetting_SampleTrace.
  destruct (sample_decision s) as [s' d] eqn:E. simpl in *. subst d.
  cbn [snd fst]. repeat split; try assumption. discriminate.
Qed.

Lemma failed_allocation_does_not_return_witness :
  snd (TraceSetting_SampleTrace (example_setting 1 5 0) None) = Faults
  /\ count_ (fst (TraceSetting_SampleTrace (example_setting 1 5 0) None)) = 4.
Proof.
  destruct (failed_allocation_does_not_return (example_setting 1 5 0)
              ltac:(simpl; lia) eq_refl) as (H1 & _ & H2 & _).
  split; [exact H1 | exact H2].
Defined.

(** ** Policy store *)

(** A field other than the backend options follows the rule of the
    comment: cleared fields are unspecified, other fields are specified when
    they were or when the update sets them. *)
Lemma specified_flag_rule {A} clear current flag (new_value : option A) :
  specified_flag clear current flag new_value = true
  <-> clear = false
      /\ ((exists c, current = Some c /\ flag c = true) \/ is_Some new_value).
Proof.
  unfold specified_flag. destruct clear; [split; [discriminate|intros [? _]; discriminate]|].
  rewrite orb_true_iff, bool_decide_eq_true. split.
  - intros [Hc|Hn]; split; auto. left. destruct current as [c|]; [eauto|discriminate].
  - intros [_ [(c & -> & Hc)|Hn]]; auto.
Qed.

(** An update that is turned down leaves the global setting and the model
    settings as they were. *)
Lemma rejected_update_keeps_policies m model_name new_setting m' err :
  UpdateTraceSettingInternal m model_name new_setting = (m', Some err) ->
  global_default_ m' = global_default_ m
  /\ global_setting_ m' = global_setting_ m
  /\ model_settings_ m' = model_settings_ m.
Proof.
  unfold UpdateTraceSettingInternal.
  repeat match goal with
         | |- context [if ?b then _ else _] => destruct b
         end; intros Heq; inversion Heq; subst; simpl; auto.
Qed.

(** C1, at the failing input: an accepted update that sets the backend
    options - of the global setting or of a model - stores a setting whose
    options are unspecified and have the value of the fallback layer, because
    the flag is computed with the value pointer in the position of the clear
    flag. *)
Theorem config_map_update_is_dropped
    (m m' : TraceManager) (model_name : string) (new_setting : NewSetting)
    (config_map : TraceConfigMap) (lts : TraceSetting) :
  new_config_map_ new_setting = Some config_map ->
  UpdateTraceSettingInternal m model_name new_setting = (m', None) ->
  (if is_global model_name then Some (global_setting_ m')
   else model_settings_ m' !! model_name) = Some lts ->
  config_map_specified_ lts = false
  /\ config_map_ lts
     = config_map_ (if is_global model_name then global_default_ m
                    else global_setting_ m).
Proof.
  intros Hcm. unfold UpdateTraceSettingInternal. rewrite Hcm.
  destruct (is_global model_name); cbn [negb andb].
  - destruct (negb (Valid _) && _); intros Heq; inversion Heq; subst; clear Heq.
    cbn [global_setting_]. intros Hl. inversion Hl; subst. split; reflexivity.
  - destruct (negb _ && negb _)%bool.
    + intros Heq; inversion Heq; subst; clear Heq. cbn [model_settings_].
      rewrite lookup_delete_eq. discriminate.
    + destruct (negb (Valid _) && _); intros Heq; inversion Heq; subst; clear Heq.
      cbn [model_settings_]. rewrite lookup_insert_eq.
      intros Hl. inversion Hl; subst. split; reflexivity.
Qed.

Lemma config_map_update_is_dropped_witness :
  config_map_ (global_setting_
     (fst (UpdateTraceSettingInternal example_manager ""
             (update_config_map [("1", [("url", "http://localhost:4318")])]))))
  = [].
Proof.
  exact (proj2 (config_map_update_is_dropped example_manager _ ""
                  (update_config_map [("1", [("url", "http://localhost:4318")])])
                  [("1", [("url", "http://localhost:4318")])] _
                  eq_refl eq_refl eq_refl)).
Defined.

(** C4, at the failing input: setting rate 0 for a model that has no
    setting is turned down and the model settings stay as they were, but the
    model has been entered into the set of models that mirror the global
    setting. *)
Theorem rejected_update_changes_fallback_set :
  let '(m', err) := UpdateTraceSetting example_manager "m" (update_rate 0) in
  err = Some "Attempting to set invalid trace setting :sample rate must be non-zero"
  /\ model_settings_ m' = model_settings_ example_manager
  /\ global_setting_ m' = global_setting_ example_manager
  /\ ("m" ∉ fallback_used_models_ example_manager)
  /\ ("m" ∈ fallback_used_models_ m').
Proof.
  vm_compute. repeat split. discriminate.
Qed.

(** C5, at the failing input: a model whose only specified field is cleared
    again loses its setting, and its name stays in the set of models that
    mirror the global setting. *)
Theorem cleared_model_stays_in_fallback_set :
  let '(m1, err1) := UpdateTraceSetting example_manager "m" (update_rate 5) in
  let '(m2, err2) := UpdateTraceSetting m1 "m" update_clear_rate in
  err1 = None /\ err2 = None
  /\ rate_ (resolve m1 "m") = 5
  /\ ("m" ∈ fallback_used_models_ m1)
  /\ model_settings_ m2 !! "m" = None
  /\ ("m" ∈ fallback_used_models_ m2).
Proof.
  vm_compute. repeat split.
Qed.

(** A model without a setting resolves to the global setting. *)
Lemma resolve_without_entry m model_name :
  model_settings_ m !! model_name = None ->
  resolve m model_name = global_setting_ m.
Proof. intros Hl. unfold resolve. rewrite Hl. reflexivity. Qed.

(** The scenario of the specification: a model that only specifies its rate
    follows a later change of the global level and keeps its rate. *)
Lemma global_update_reaches_mirroring_model :
  let '(m1, err1) := UpdateTraceSetting example_manager "m" (update_rate 5) in
  let '(m2, err2) :=
    UpdateTraceSetting m1 "" (update_level TRITONSERVER_TRACE_LEVEL_TENSORS) in
  err1 = None /\ err2 = None
  /\ level_ (resolve m2 "m") = TRITONSERVER_TRACE_LEVEL_TENSORS
  /\ rate_ (resolve m2 "m") = 5.
Proof. vm_compute. repeat split. Qed.

(** A rejected update can also take a model out of the set: the model keeps
    its partial setting, and the next change of the global setting no longer
    reaches the fields it mirrors. *)
Lemma rejected_update_stops_mirroring :
  let '(m1, err1) := UpdateTraceSetting example_manager "m" (update_rate 5) in
  let '(m2, err2) := UpdateTraceSetting m1 "m" (update_all_fields 0) in
  let '(m3, err3) :=
    UpdateTraceSetting m2 "" (update_level TRITONSERVER_TRACE_LEVEL_TENSORS) in
  err1 = None /\ is_Some err2 /\ err3 = None
  /\ resolve m2 "m" = resolve m1 "m"
  /\ level_specified_ (resolve m3 "m") = false
  /\ level_ (resolve m3 "m") = TRITONSERVER_TRACE_LEVEL_TIMESTAMPS
  /\ level_ (global_setting_ m3) = TRITONSERVER_TRACE_LEVEL_TENSORS.
Proof. vm_compute. repeat split. eexists. reflexivity. Qed.

(** ** Strings and streams *)

Lemma str_app_cons x (a b : string) : String x a +:+ b = String x (a +:+ b).
Proof. reflexivity. Qed.

Lemma str_app_nil_l (b : string) : "" +:+ b = b.
Proof. reflexivity. Qed.

Lemma str_app_assoc (a b c : string) : (a +:+ b) +:+ c = a +:+ (b +:+ c).
Proof.
  induction a as [|x a IH]; [reflexivity|].
  rewrite !str_app_cons, IH. reflexivity.
Qed.

Lemma str_app_nil_r (a : string) : a +:+ "" = a.
Proof.
  induction a as [|x a IH]; [reflexivity|].
  rewrite str_app_cons, IH. reflexivity.
Qed.

Lemma str_app_length (a b : string) :
  String.length (a +:+ b) = (String.length a + String.length b)%nat.
Proof.
  induction a as [|x a IH]; [reflexivity|].
  rewrite str_app_cons. simpl. rewrite IH. reflexivity.
Qed.

Lemma str_app_grows (a b : string) : b <> "" -> a +:+ b <> a.
Proof.
  intros Hb Heq. apply (f_equal String.length) in Heq.
  rewrite str_app_length in Heq. destruct b; [congruence | simpl in Heq; lia].
Qed.


Lemma str_app_nonempty_l (a b : string) : a <> "" -> a +:+ b <> "".
Proof. destruct a; [congruence | rewrite str_app_cons; discriminate]. Qed.

(** The begin block followed by one insertion stores the old content, a
    separator if there was content, and the text. *)
Lemma stream_begin_put id text (streams : gmap Z string) :
  stream_put id text (stream_begin id streams)
  = <[id := stream_prefix id streams +:+ text]> streams.
Proof.
  unfold stream_put, stream_begin, stream_prefix.
  destruct (streams !! id); rewrite alter_insert_eq; reflexivity.
Qed.

Lemma stream_put_put id a b (streams : gmap Z string) :
  stream_put id b (stream_put id a streams) = stream_put id (a +:+ b) streams.
Proof.
  unfold stream_put. rewrite alter_alter_eq.
  apply alter_ext. intros c _. simpl. apply str_app_assoc.
Qed.

Lemma stream_prefix_grows id text (streams : gmap Z string) :
  text <> "" ->
  Some (stream_prefix id streams +:+ text) <> streams !! id.
Proof.
  intros Ht. unfold stream_prefix. destruct (streams !! id) as [c|]; [|discriminate].
  intros Heq. inversion Heq as [Heq']. rewrite str_app_assoc in Heq'.
  revert Heq'. apply str_app_grows. discriminate.
Qed.

(** ** Tensor events *)

Section TensorProperties.
Context {engine : EngineApi}.

Lemma tensor_header_nonempty id activity name :
  tensor_header id activity name <> "".
Proof. discriminate. Qed.

(** C8, what the code does: in the local mode a tensor event of the invalid
    datatype leaves the separator and the opening of its fragment in the
    buffer of its trace id - the buffer is not what it was before the
    callback - and nothing is logged. *)
Theorem invalid_datatype_leaves_header
    (trace : InferenceTrace) (activity : TRITONSERVER_InferenceTraceActivity)
    (name : string) (base : list byte) (byte_size : Z) (shape : list Z)
    (memory_type : TRITONSERVER_MemoryType) (host_copy : option (list byte))
    (ts : Trace) :
  tensor_activity_supported activity = true ->
  memory_type <> TRITONSERVER_MEMORY_GPU ->
  mode_ (setting_ ts) = TRACE_MODE_TRITON ->
  let id := trace_handle_id trace in
  let result :=
    TraceTensorActivity trace activity name TRITONSERVER_TYPE_INVALID base
      byte_size shape memory_type host_copy ts in
  streams_ (fst result) !! id
  = Some (stream_prefix id (streams_ ts) +:+ tensor_header id activity name)
  /\ streams_ (fst result) !! id <> streams_ ts !! id
  /\ snd result = [].
Proof.
  intros Hact Hmem Hmode id result. subst result.
  unfold TraceTensorActivity. rewrite Hact, Hmode.
  rewrite bool_decide_eq_false_2 by exact Hmem. cbn [negb fst snd].
  cbn [set_streams streams_]. rewrite stream_begin_put, lookup_insert_eq.
  split; [reflexivity|]. split; [|reflexivity].
  apply stream_prefix_grows, tensor_header_nonempty.
Qed.

(** C9, what the code does: in the local mode a BYTES tensor event whose
    element loop returns early (a length prefix or the bytes after it would
    pass [byte_size]) leaves in the buffer of its trace id the opening of its
    fragment and the elements written before the return, and nothing is
    logged. *)
Theorem truncated_bytes_leave_fragment
    (trace : InferenceTrace) (activity : TRITONSERVER_InferenceTraceActivity)
    (name : string) (base : list byte) (byte_size : Z) (shape : list Z)
    (memory_type : TRITONSERVER_MemoryType) (host_copy : option (list byte))
    (ts : Trace) :
  tensor_activity_supported activity = true ->
  memory_type <> TRITONSERVER_MEMORY_GPU ->
  mode_ (setting_ ts) = TRACE_MODE_TRITON ->
  let id := trace_handle_id trace in
  let element_count := element_count_of shape in
  let loop :=
    bytes_loop base byte_size element_count (Z.to_nat element_count) 0 0 in
  snd loop = false ->
  let result :=
    TraceTensorActivity trace activity name TRITONSERVER_TYPE_BYTES base
      byte_size shape memory_type host_copy ts in
  streams_ (fst result) !! id
  = Some (stream_prefix id (streams_ ts) +:+ tensor_header id activity name
          +:+ fst loop)
  /\ streams_ (fst result) !! id <> streams_ ts !! id
  /\ snd result = [].
Proof.
  intros Hact Hmem Hmode id element_count loop Hloop result.
  subst result. unfold TraceTensorActivity. rewrite Hact, Hmode.
  rewrite bool_decide_eq_false_2 by exact Hmem. cbn [negb].
  fold id. fold element_count. fold loop.
  destruct loop as [text finished] eqn:Eloop. simpl in Hloop. subst finished.
  cbn [fst snd set_streams streams_].
  rewrite stream_begin_put.
  unfold stream_put. rewrite alter_insert_eq, lookup_insert_eq.
  rewrite str_app_assoc.
  split; [reflexivity|]. split; [|reflexivity].
  apply stream_prefix_grows, str_app_nonempty_l, tensor_header_nonempty.
Qed.

(** A buffer too short for the first length prefix ends the loop at
    once. *)
Lemma bytes_loop_short_prefix base byte_size element_count n :
  byte_size < 4 -> (0 < n)%nat ->
  bytes_loop base byte_size element_count n 0 0 = ("", false).
Proof.
  intros Hsize Hn. destruct n as [|n]; [lia|]. simpl.
  change (0 + 4) with 4.
  destruct (Z.ltb_spec byte_size 4); [reflexivity | lia].
Qed.

End TensorProperties.

Lemma invalid_datatype_leaves_header_witness :
  streams_
    (fst (TraceTensorActivity (engine := example_engine)
            (example_handle 7 "") TRITONSERVER_TRACE_TENSOR_QUEUE_INPUT "x"
            TRITONSERVER_TYPE_INVALID [] 0 [1] TRITONSERVER_MEMORY_CPU None
            (Trace_new (example_setting 1 10 0) 7))) !! 7
  <> (∅ : gmap Z string) !! 7.
Proof.
  exact (proj1 (proj2
    (invalid_datatype_leaves_header (engine := example_engine)
       (example_handle 7 "") TRITONSERVER_TRACE_TENSOR_QUEUE_INPUT "x" [] 0 [1]
       TRITONSERVER_MEMORY_CPU None (Trace_new (example_setting 1 10 0) 7)
       eq_refl ltac:(discriminate) eq_refl))).
Defined.

Lemma truncated_bytes_leave_fragment_witness :
  streams_
    (fst (TraceTensorActivity (engine := example_engine)
            (example_handle 7 "") TRITONSERVER_TRACE_TENSOR_QUEUE_INPUT "x"
            TRITONSERVER_TYPE_BYTES truncated_bytes 11 [2]
            TRITONSERVER_MEMORY_CPU None
            (Trace_new (example_setting 1 10 0) 7))) !! 7
  = Some ("{" +:+ q "id" +:+ ":7," +:+ q "activity" +:+ ":"
          +:+ q "TENSOR_QUEUE_INPUT" +:+ "," +:+ q "tensor" +:+ ":{"
          +:+ q "name" +:+ ":" +:+ q "x" +:+ "," +:+ q "data" +:+ ":" +:+ quote
          +:+ escaped_quote +:+ "ab" +:+ escaped_quote +:+ ",").
Proof.
  exact (proj1
    (truncated_bytes_leave_fragment (engine := example_engine)
       (example_handle 7 "") TRITONSERVER_TRACE_TENSOR_QUEUE_INPUT "x"
       truncated_bytes 11 [2] TRITONSERVER_MEMORY_CPU None
       (Trace_new (example_setting 1 10 0) 7)
       eq_refl ltac:(discriminate) eq_refl eq_refl)).
Defined.

(** ** Flushing *)





Section Flushing.
Context {container : ContainerApi}.








End Flushing.
(** ** Reading JSON text *)

Lemma json_run_app a b st :
  json_run (a +:+ b) st
  = match json_run a st with Some st' => json_run b st' | None => None end.
Proof.
  revert st. induction a as [|c a IH]; intros st; [reflexivity|].
  rewrite str_app_cons. cbn [json_run]. destruct (json_step st c); auto.
Qed.


(** *** Strings *)

Lemma string_step_plain c :
  is_string_char c = true -> string_step Chars c = Some (Some Chars).
Proof.
  destruct c as [[] [] [] [] [] [] [] []]; intros H; vm_compute in H;
    try discriminate H; reflexivity.
Qed.

Lemma string_run_plain text :
  plain text = true -> string_run text Chars = Some Chars.
Proof.
  induction text as [|c text IH]; intros Hp; [reflexivity|].
  cbn [plain] in Hp. apply andb_true_iff in Hp as [Hc Hrest].
  cbn [string_run]. rewrite (string_step_plain c Hc). apply IH, Hrest.
Qed.


Lemma plain_string_body text : plain text = true -> string_body text = true.
Proof. intros Hp. unfold string_body. rewrite string_run_plain; auto. Qed.








(** *** Numbers *)









(** *** Elements *)




Section FragmentProperties.
Context {engine : EngineApi}.




Hypothesis activity_names_plain :
  forall activity, plain (TRITONSERVER_InferenceTraceActivityString activity) = true.

Hypothesis datatype_names_plain :
  forall datatype, plain (TRITONSERVER_DataTypeString datatype) = true.


(** *** Streams of a trace *)


Lemma TraceActivity_setting trace activity timestamp_ns ts :
  setting_ (TraceActivity trace activity timestamp_ns ts) = setting_ ts.
Proof. unfold TraceActivity. destruct (mode_ (setting_ ts)); reflexivity. Qed.

Lemma CaptureTimestamp_setting ts name timestamp_ns :
  setting_ (CaptureTimestamp ts name timestamp_ns) = setting_ ts.
Proof.
  unfold CaptureTimestamp.
  destruct (negb _); [|reflexivity]. destruct (mode_ (setting_ ts)); reflexivity.
Qed.





(** A tensor event is dropped, or it puts one text behind the begin block:
    the header, the data, and the trailer when the switch over the datatype
    runs to its end. *)
Lemma TraceTensorActivity_streams trace activity name datatype base byte_size
    shape memory_type host_copy ts :
  let id := trace_handle_id trace in
  let result :=
    fst (TraceTensorActivity trace activity name datatype base byte_size shape
           memory_type host_copy ts) in
  setting_ result = setting_ ts
  /\ trace_id_ result = trace_id_ ts
  /\ (streams_ result = streams_ ts
      \/ exists buffer_base text,
           tensor_activity_supported activity = true
           /\ tensor_buffer memory_type base host_copy = Some buffer_base
           /\ streams_ result
              = stream_put id (tensor_header id activity name +:+ text)
                  (stream_begin id (streams_ ts))
           /\ forall data,
                tensor_data datatype buffer_base byte_size shape = Some data ->
                text = data +:+ tensor_trailer datatype shape).
Proof.
  intros id result. subst result. unfold TraceTensorActivity.
  destruct (tensor_activity_supported activity) eqn:Hact; cbn [negb];
    [|cbn [fst]; auto].
  fold (tensor_buffer memory_type base host_copy).
  destruct (tensor_buffer memory_type base host_copy) as [buffer_base|] eqn:Hbuf;
    [|cbn [fst]; auto].
  destruct (mode_ (setting_ ts)); [|cbn [fst]; auto].
  fold id. unfold tensor_data. cbv zeta.
  destruct (bytes_loop buffer_base byte_size (element_count_of shape)
              (Z.to_nat (element_count_of shape)) 0 0)
    as [loop_text finished] eqn:Hloop.
  destruct datatype; try destruct finished;
    cbn [fst setting_ trace_id_ streams_ set_streams];
    (split; [reflexivity|]); (split; [reflexivity|]); right;
    exists buffer_base;
    rewrite ?Hloop, ?stream_put_put, ?str_app_assoc;
    first
      [ (* nothing behind the header *)
        exists ""; rewrite str_app_nil_r;
        split; [reflexivity|]; split; [reflexivity|]; split; [reflexivity|];
        intros data Hdata; discriminate Hdata
      | eexists;
        split; [reflexivity|]; split; [reflexivity|]; split; [reflexivity|];
        intros data Hdata;
        first [ discriminate Hdata
              | inversion Hdata; subst; rewrite ?str_app_nil_l; reflexivity ] ].
Qed.

Lemma record_event_setting ts ev : setting_ (record_event ts ev) = setting_ ts.
Proof.
  destruct ev; [apply TraceActivity_setting | apply CaptureTimestamp_setting |].
  apply TraceTensorActivity_streams.
Qed.

Lemma record_events_setting events ts :
  setting_ (record_events ts events) = setting_ ts.
Proof.
  revert ts. induction events as [|ev events IH]; intros ts; [reflexivity|].
  unfold record_events in *. simpl. rewrite IH. apply record_event_setting.
Qed.







End FragmentProperties.

(** ** The files of a sink *)









Section SinkProperties.
Context {engine : EngineApi} {container : ContainerApi}.



End SinkProperties.

Section SinkRuns.
Context {engine : EngineApi} {container : ContainerApi}.

Hypothesis activity_names_plain :
  forall activity, plain (TRITONSERVER_InferenceTraceActivityString activity) = true.

Hypothesis datatype_names_plain :
  forall datatype, plain (TRITONSERVER_DataTypeString datatype) = true.






End SinkRuns.

(** ** The sink on concrete runs *)









(** The file of the trace without an event holds the opening bracket only:
    inserting the empty buffer sets the fail bit of the file stream. *)
Lemma empty_trace_leaves_open_bracket :
  sink_lifetime (engine := example_engine) (container := example_container)
    "/tmp/t" silent_run !! "/tmp/t.0"
  = Some "[".
Proof. vm_compute. reflexivity. Qed.

(** * Further properties *)

(** ** Policy store *)

Lemma is_global_true name : is_global name = true <-> name = "".
Proof. unfold is_global. apply String.eqb_eq. Qed.

Lemma is_global_false name : is_global name = false <-> name <> "".
Proof. unfold is_global. apply String.eqb_neq. Qed.

Lemma merged_field_intro {A} clear (new_value : option A) current flag get
    fallback lts :
  flag lts = specified_flag clear current flag new_value ->
  get lts = merged_value (specified_flag clear current flag new_value)
              new_value current get (get fallback) ->
  merged_field clear new_value current flag get fallback lts.
Proof.
  unfold merged_field, specified_flag, merged_value. intros Hf Hg.
  destruct clear; [auto|]. destruct new_value as [v|].
  - rewrite orb_true_r in *. auto.
  - rewrite orb_false_r in *.
    destruct current as [c|]; [|auto]. split; [exact Hf|].
    rewrite Hg. reflexivity.
Qed.

(** What an update of a model does to everything but that model. *)
Lemma model_update_internal_local m model_name new_setting m' result :
  is_global model_name = false ->
  UpdateTraceSettingInternal m model_name new_setting = (m', result) ->
  global_default_ m' = global_default_ m
  /\ global_setting_ m' = global_setting_ m
  /\ (forall other, other <> model_name ->
        model_settings_ m' !! other = model_settings_ m !! other)
  /\ (forall other, other <> model_name ->
        other ∈ fallback_used_models_ m' <-> other ∈ fallback_used_models_ m).
Proof.
  intros Hg. unfold UpdateTraceSettingInternal. rewrite Hg. cbn [negb andb].
  repeat match goal with
         | |- context [if ?b then _ else _] =>
             lazymatch b with
             | context [if _ then _ else _] => fail
             | _ => destruct b
             end
         end;
    intros Heq; inversion Heq; subst; cbn;
    (split; [reflexivity|]); (split; [reflexivity|]);
    (split; [intros other Hne;
             rewrite ?lookup_delete_ne, ?lookup_insert_ne by congruence;
             reflexivity|]);
    intros other Hne; set_solver.
Qed.

(** The setting an accepted update stores: the merge of the six regular
    fields, the outcome of the check, and the bookkeeping of the set. *)
Lemma internal_stored m model_name new_setting m' lts :
  UpdateTraceSettingInternal m model_name new_setting = (m', None) ->
  (if is_global model_name then Some (global_setting_ m')
   else model_settings_ m' !! model_name) = Some lts ->
  let current := current_of m model_name in
  let fallback := fallback_of m model_name in
  (merged_field (clear_level_ new_setting) (new_level_ new_setting) current
     level_specified_ level_ fallback lts
   /\ merged_field (clear_rate_ new_setting) (new_rate_ new_setting) current
        rate_specified_ rate_ fallback lts
   /\ merged_field (clear_count_ new_setting) (new_count_ new_setting) current
        count_specified_ count_ fallback lts
   /\ merged_field (clear_log_frequency_ new_setting)
        (new_log_frequency_ new_setting) current
        log_frequency_specified_ log_frequency_ fallback lts
   /\ merged_field (clear_filepath_ new_setting) (new_filepath_ new_setting)
        current filepath_specified_ file_ fallback lts
   /\ merged_field (clear_mode_ new_setting) (new_mode_ new_setting) current
        mode_specified_ mode_ fallback lts)
  /\ accepted lts
  /\ (is_global model_name = false ->
      if all_five_specified lts
      then model_name ∉ fallback_used_models_ m'
      else model_name ∈ fallback_used_models_ m').
Proof.
  unfold UpdateTraceSettingInternal, current_of, fallback_of.
  destruct (is_global model_name) eqn:Hg; cbn [negb andb].
  - match goal with
    | |- context [if negb (Valid ?l) && ?d then _ else _] =>
        destruct (Valid l) eqn:Hv; destruct d eqn:Hd; cbn [negb andb]
    end; intros Heq; inversion Heq; subst; cbn [global_setting_];
      intros Hl; inversion Hl; subst;
      (split; [repeat split; apply merged_field_intro; reflexivity|]);
      (split; [|discriminate]);
      first [ left; exact Hv
            | right; apply negb_false_iff, Z.eqb_eq in Hd; exact Hd ].
  - match goal with
    | |- context [if negb ?a && ?n then _ else _] =>
        destruct a eqn:Hall; destruct n eqn:Hnone; cbn [negb andb]
    end.
    all: try (intros Heq; inversion Heq; subst; cbn [model_settings_];
              rewrite lookup_delete_eq; discriminate).
    all: match goal with
         | |- context [if negb (Valid ?l) && ?d then _ else _] =>
             destruct (Valid l) eqn:Hv; destruct d eqn:Hd; cbn [negb andb]
         end; intros Heq; inversion Heq; subst;
           cbn [model_settings_ fallback_used_models_];
           rewrite lookup_insert_eq; intros Hl; inversion Hl; subst;
           (split; [repeat split; apply merged_field_intro; reflexivity|]);
           split.
    all: try (left; exact Hv).
    all: try (right; apply negb_false_iff, Z.eqb_eq in Hd; exact Hd).
    all: intros _; unfold all_five_specified; cbn; rewrite Hall; set_solver.
Qed.

Lemma merged_field_unspecified {A} clear (new_value : option A) current flag
    get fallback lts :
  merged_field clear new_value current flag get fallback lts ->
  flag lts = false -> get lts = get fallback.
Proof.
  unfold merged_field. destruct clear; [tauto|].
  destruct new_value; [intros [Ht _] Hf; congruence|].
  destruct current as [c|]; [|tauto].
  intros [Hflag Hget] Hf. rewrite Hget. rewrite <- Hflag, Hf. reflexivity.
Qed.

(** X1: an accepted update stores, for each of level, rate, count, log
    frequency, file path and mode, the outcome of the two passes: a cleared
    field is unspecified with the fallback value even when the same update
    carries a value for it; otherwise a new value is taken and the field is
    specified; otherwise the field stays as the current setting has it. *)
Theorem accepted_update_merges_fields
    (m m' : TraceManager) (model_name : string) (new_setting : NewSetting)
    (lts : TraceSetting) :
  UpdateTraceSettingInternal m model_name new_setting = (m', None) ->
  (if is_global model_name then Some (global_setting_ m')
   else model_settings_ m' !! model_name) = Some lts ->
  merged_field (clear_level_ new_setting) (new_level_ new_setting)
    (current_of m model_name) level_specified_ level_
    (fallback_of m model_name) lts
  /\ merged_field (clear_rate_ new_setting) (new_rate_ new_setting)
       (current_of m model_name) rate_specified_ rate_
       (fallback_of m model_name) lts
  /\ merged_field (clear_count_ new_setting) (new_count_ new_setting)
       (current_of m model_name) count_specified_ count_
       (fallback_of m model_name) lts
  /\ merged_field (clear_log_frequency_ new_setting)
       (new_log_frequency_ new_setting)
       (current_of m model_name) log_frequency_specified_ log_frequency_
       (fallback_of m model_name) lts
  /\ merged_field (clear_filepath_ new_setting) (new_filepath_ new_setting)
       (current_of m model_name) filepath_specified_ file_
       (fallback_of m model_name) lts
  /\ merged_field (clear_mode_ new_setting) (new_mode_ new_setting)
       (current_of m model_name) mode_specified_ mode_
       (fallback_of m model_name) lts.
Proof.
  intros Hupd Hl. exact (proj1 (internal_stored _ _ _ _ _ Hupd Hl)).
Qed.

Lemma accepted_update_merges_fields_witness :
  rate_ (resolve (fst (UpdateTraceSettingInternal example_manager "m"
                         (update_rate 5))) "m") = 5
  /\ level_ (resolve (fst (UpdateTraceSettingInternal example_manager "m"
                             (update_rate 5))) "m")
     = TRITONSERVER_TRACE_LEVEL_TIMESTAMPS.
Proof.
  pose proof (accepted_update_merges_fields example_manager _ "m"
                (update_rate 5) _ eq_refl eq_refl) as (Hlevel & Hrate & _).
  split; [exact (proj2 Hrate) | exact (proj2 Hlevel)].
Defined.

Lemma stored_mirrors m model_name new_setting m' lts :
  is_global model_name = false ->
  UpdateTraceSettingInternal m model_name new_setting = (m', None) ->
  model_settings_ m' !! model_name = Some lts ->
  mirrors lts (global_setting_ m).
Proof.
  intros Hg Hupd Hl.
  destruct (internal_stored m model_name new_setting m' lts Hupd) as [Hm _].
  { rewrite Hg. exact Hl. }
  unfold fallback_of in Hm. rewrite Hg in Hm.
  destruct Hm as (H1 & H2 & H3 & H4 & H5 & _).
  repeat split; eapply merged_field_unspecified; eassumption.
Qed.

(** What an update of the global setting does to the models. *)
Lemma global_update_internal_models m new_setting m' result :
  UpdateTraceSettingInternal m "" new_setting = (m', result) ->
  global_default_ m' = global_default_ m
  /\ model_settings_ m' = model_settings_ m
  /\ fallback_used_models_ m' = fallback_used_models_ m.
Proof.
  unfold UpdateTraceSettingInternal. change (is_global "") with true.
  cbn [negb andb]. destruct (negb (Valid _) && _);
    intros Heq; inversion Heq; subst; auto.
Qed.

(** The propagation loop leaves alone what it is not asked to refresh. *)
Lemma update_fallback_models_local names m m' result :
  Forall (λ name, name <> "") names ->
  update_fallback_models m names = (m', result) ->
  global_default_ m' = global_default_ m
  /\ global_setting_ m' = global_setting_ m
  /\ (forall other, other ∉ names ->
        model_settings_ m' !! other = model_settings_ m !! other)
  /\ (forall other, other ∉ names ->
        other ∈ fallback_used_models_ m' <-> other ∈ fallback_used_models_ m).
Proof.
  revert m. induction names as [|name rest IH]; intros m Hall Hrun.
  - inversion Hrun; subst. auto.
  - inversion Hall as [|? ? Hname Hrest]; subst. cbn [update_fallback_models] in Hrun.
    destruct (UpdateTraceSettingInternal m name NewSetting_default)
      as [m1 r1] eqn:Hstep.
    apply is_global_false in Hname.
    destruct (model_update_internal_local m name _ m1 r1 Hname Hstep)
      as (Hd & Hgl & Hmod & Hset).
    assert (Hfinal :
      global_default_ m' = global_default_ m1
      /\ global_setting_ m' = global_setting_ m1
      /\ (forall other, other ∉ rest ->
            model_settings_ m' !! other = model_settings_ m1 !! other)
      /\ (forall other, other ∉ rest ->
            other ∈ fallback_used_models_ m' <-> other ∈ fallback_used_models_ m1)).
    { destruct r1 as [err|].
      - inversion Hrun; subst. auto.
      - apply IH; assumption. }
    destruct Hfinal as (Hd' & Hgl' & Hmod' & Hset').
    split; [congruence|]. split; [congruence|]. split.
    + intros other Hnotin. apply not_elem_of_cons in Hnotin as [Hne Hnotin].
      rewrite Hmod' by exact Hnotin. apply Hmod. exact Hne.
    + intros other Hnotin. apply not_elem_of_cons in Hnotin as [Hne Hnotin].
      rewrite Hset' by exact Hnotin. apply Hset. exact Hne.
Qed.

(** A completed propagation loop leaves every model it refreshed, and that
    still has a setting, with the global values in its unspecified
    fields. *)
Lemma update_fallback_models_mirrors names m m' :
  Forall (λ name, name <> "") names ->
  update_fallback_models m names = (m', None) ->
  forall model_name s,
    model_name ∈ names ->
    model_settings_ m' !! model_name = Some s ->
    mirrors s (global_setting_ m).
Proof.
  revert m. induction names as [|name rest IH]; intros m Hall Hrun model_name s Hin Hl.
  - inversion Hin.
  - inversion Hall as [|? ? Hname Hrest]; subst. cbn [update_fallback_models] in Hrun.
    destruct (UpdateTraceSettingInternal m name NewSetting_default)
      as [m1 r1] eqn:Hstep.
    destruct r1 as [err|]; [discriminate|].
    pose proof Hname as Hng. apply is_global_false in Hng.
    destruct (model_update_internal_local m name _ m1 None Hng Hstep)
      as (_ & Hgl & _ & _).
    destruct (decide (model_name ∈ rest)) as [Hrest_in|Hrest_out].
    + rewrite <- Hgl. eapply IH; eassumption.
    + apply elem_of_cons in Hin as [->|Hin]; [|contradiction].
      destruct (update_fallback_models_local rest m1 m' None Hrest Hrun)
        as (_ & _ & Hmod & _).
      rewrite Hmod in Hl by exact Hrest_out.
      eapply stored_mirrors; eassumption.
Qed.

Lemma elements_without_empty_name (names : gset string) :
  "" ∉ names -> Forall (λ name, name <> "") (elements names).
Proof.
  intros Hno. apply Forall_forall. intros name Hin Heq. subst.
  apply Hno. apply elem_of_elements. exact Hin.
Qed.

Lemma mirrors_after_global_update
    (m m' : TraceManager) (new_setting : NewSetting) :
  mirroring_tracked m ->
  UpdateTraceSetting m "" new_setting = (m', None) ->
  forall model_name s,
    model_settings_ m' !! model_name = Some s ->
    mirrors s (global_setting_ m').
Proof.
  intros [Hempty Htracked] Hupd model_name s Hl.
  unfold UpdateTraceSetting in Hupd.
  destruct (UpdateTraceSettingInternal m "" new_setting) as [m1 r1] eqn:Hstep.
  destruct r1 as [err|]; [discriminate|]. change (is_global "") with true in Hupd.
  destruct (global_update_internal_models m new_setting m1 None Hstep)
    as (_ & Hmod1 & Hset1).
  assert (Hnames : Forall (λ name, name <> "") (elements (fallback_used_models_ m1))).
  { apply elements_without_empty_name. rewrite Hset1. exact Hempty. }
  destruct (update_fallback_models_local _ m1 m' None Hnames Hupd)
    as (_ & Hgl & Hmod & _).
  rewrite Hgl.
  destruct (decide (model_name ∈ elements (fallback_used_models_ m1))) as [Hin|Hout].
  - eapply update_fallback_models_mirrors; eassumption.
  - rewrite Hmod in Hl by exact Hout. rewrite Hmod1 in Hl.
    destruct (all_five_specified s) eqn:Hall.
    + unfold all_five_specified in Hall.
      repeat (apply andb_true_iff in Hall as [Hall ?]).
      repeat split; congruence.
    + exfalso. apply Hout, elem_of_elements. rewrite Hset1.
      eapply Htracked; eassumption.
Qed.

(** X2: when the set tracks every model that leaves one of the five fields
    unspecified, a global update that succeeds leaves every model setting
    with the values of the new global setting in the fields the model does
    not specify. *)
Theorem global_update_refreshes_mirrors
    (m m' : TraceManager) (new_setting : NewSetting) :
  mirroring_tracked m ->
  UpdateTraceSetting m "" new_setting = (m', None) ->
  forall model_name s,
    model_settings_ m' !! model_name = Some s ->
    mirrors s (global_setting_ m').
Proof. apply mirrors_after_global_update. Qed.

Lemma mirroring_tracked_new level rate count log_frequency filepath mode config_map :
  mirroring_tracked
    (TraceManager_new level rate count log_frequency filepath mode config_map).
Proof.
  split; [set_solver|]. intros model_name s Hl. cbn in Hl.
  rewrite lookup_empty in Hl. discriminate.
Qed.

Lemma mirroring_tracked_internal m model_name new_setting m' :
  mirroring_tracked m ->
  UpdateTraceSettingInternal m model_name new_setting = (m', None) ->
  mirroring_tracked m'.
Proof.
  intros [Hempty Htracked] Hupd.
  destruct (is_global model_name) eqn:Hg.
  - apply is_global_true in Hg. subst.
    destruct (global_update_internal_models m new_setting m' None Hupd)
      as (_ & Hmod & Hset).
    split; [rewrite Hset; exact Hempty|].
    intros name s. rewrite Hmod, Hset. apply Htracked.
  - destruct (model_update_internal_local m model_name _ m' None Hg Hupd)
      as (_ & _ & Hmod & Hset).
    pose proof Hg as Hne. apply is_global_false in Hne.
    split; [rewrite Hset by congruence; exact Hempty|].
    intros name s Hl Hpartial.
    destruct (decide (name = model_name)) as [->|Hother].
    + destruct (internal_stored m model_name _ m' s Hupd) as (_ & _ & Hbook).
      { rewrite Hg. exact Hl. }
      specialize (Hbook Hg). rewrite Hpartial in Hbook. exact Hbook.
    + rewrite Hset by exact Hother. rewrite Hmod in Hl by exact Hother.
      eapply Htracked; eassumption.
Qed.

Lemma mirroring_tracked_loop names m m' :
  mirroring_tracked m ->
  update_fallback_models m names = (m', None) ->
  mirroring_tracked m'.
Proof.
  revert m. induction names as [|name rest IH]; intros m Hinv Hrun.
  - inversion Hrun; subst. exact Hinv.
  - cbn [update_fallback_models] in Hrun.
    destruct (UpdateTraceSettingInternal m name NewSetting_default)
      as [m1 r1] eqn:Hstep.
    destruct r1 as [err|]; [discriminate|].
    eapply IH; [|exact Hrun]. eapply mirroring_tracked_internal; eassumption.
Qed.

Lemma mirroring_tracked_update m model_name new_setting m' :
  mirroring_tracked m ->
  UpdateTraceSetting m model_name new_setting = (m', None) ->
  mirroring_tracked m'.
Proof.
  intros Hinv Hupd. unfold UpdateTraceSetting in Hupd.
  destruct (UpdateTraceSettingInternal m model_name new_setting)
    as [m1 r1] eqn:Hstep.
  destruct r1 as [err|]; [discriminate|].
  pose proof (mirroring_tracked_internal m model_name _ m1 Hinv Hstep) as Hinv1.
  destruct (is_global model_name).
  - eapply mirroring_tracked_loop; eassumption.
  - inversion Hupd; subst. exact Hinv1.
Qed.

(** X3: from the start of the server, after any run of updates that all
    succeed (and no sampling in between), the set tracks every model that
    leaves one of the five fields unspecified, and every model setting has
    the values of the current global setting in the fields it does not
    specify. *)
Theorem successful_updates_keep_models_mirroring
    (level : TRITONSERVER_InferenceTraceLevel) (rate count log_frequency : Z)
    (filepath : string) (mode : InferenceTraceMode) (config_map : TraceConfigMap)
    (updates : list (string * NewSetting)) (m : TraceManager) :
  after_updates
    (TraceManager_new level rate count log_frequency filepath mode config_map)
    updates = Some m ->
  mirroring_tracked m /\ all_mirror m.
Proof.
  assert (Hstart : mirroring_tracked
            (TraceManager_new level rate count log_frequency filepath mode
               config_map)
          /\ all_mirror
               (TraceManager_new level rate count log_frequency filepath mode
                  config_map)).
  { split; [apply mirroring_tracked_new|].
    intros name s Hl. cbn in Hl. rewrite lookup_empty in Hl. discriminate. }
  revert Hstart. generalize (TraceManager_new level rate count log_frequency
                               filepath mode config_map).
  induction updates as [|[model_name new_setting] rest IH];
    intros m0 [Hinv Hmir] Hrun.
  - inversion Hrun; subst. auto.
  - cbn [after_updates] in Hrun.
    destruct (UpdateTraceSetting m0 model_name new_setting) as [m1 r1] eqn:Hupd.
    destruct r1 as [err|]; [discriminate|].
    apply (IH m1); [|exact Hrun].
    split; [eapply mirroring_tracked_update; eassumption|].
    destruct (is_global model_name) eqn:Hg.
    + apply is_global_true in Hg. subst.
      intros name s. eapply mirrors_after_global_update; eassumption.
    + unfold UpdateTraceSetting in Hupd. rewrite Hg in Hupd.
      destruct (UpdateTraceSettingInternal m0 model_name new_setting)
        as [m2 r2] eqn:Hstep.
      destruct r2 as [err|]; inversion Hupd; subst.
      destruct (model_update_internal_local m0 model_name _ m1 None Hg Hstep)
        as (_ & Hgl & Hmod & _).
      intros name s Hl. rewrite Hgl.
      destruct (decide (name = model_name)) as [->|Hother].
      * eapply stored_mirrors; eassumption.
      * rewrite Hmod in Hl by exact Hother. eapply Hmir; eassumption.
Qed.

Lemma successful_updates_keep_models_mirroring_witness :
  level_
    (resolve
       (fst (UpdateTraceSetting
               (fst (UpdateTraceSetting example_manager "m" (update_rate 5)))
               "" (update_level TRITONSERVER_TRACE_LEVEL_TENSORS))) "m")
  = TRITONSERVER_TRACE_LEVEL_TENSORS.
Proof.
  destruct (successful_updates_keep_models_mirroring
              TRITONSERVER_TRACE_LEVEL_TIMESTAMPS 1 10 0 "/tmp/t"
              TRACE_MODE_TRITON []
              [("m", update_rate 5);
               ("", update_level TRITONSERVER_TRACE_LEVEL_TENSORS)]
              _ ltac:(vm_compute; reflexivity)) as [_ Hmir].
  unfold resolve.
  match goal with
  | |- level_ (match ?l with Some _ => _ | None => _ end) = _ =>
      destruct l as [s|] eqn:Hl
  end.
  - destruct (Hmir "m" s Hl) as [Hlevel _]. rewrite Hlevel; [reflexivity|].
    vm_compute in Hl. inversion Hl. reflexivity.
  - vm_compute in Hl. discriminate.
Defined.

Lemma example_model_tracked :
  mirroring_tracked (fst (UpdateTraceSetting example_manager "m" (update_rate 5))).
Proof.
  apply (mirroring_tracked_update example_manager "m" (update_rate 5));
    [apply mirroring_tracked_new | vm_compute; reflexivity].
Qed.

Lemma global_update_refreshes_mirrors_witness :
  level_
    (resolve
       (fst (UpdateTraceSetting
               (fst (UpdateTraceSetting example_manager "m" (update_rate 5)))
               "" (update_level TRITONSERVER_TRACE_LEVEL_TENSORS))) "m")
  = TRITONSERVER_TRACE_LEVEL_TENSORS.
Proof.
  pose proof (global_update_refreshes_mirrors
                (fst (UpdateTraceSetting example_manager "m" (update_rate 5)))
                _ (update_level TRITONSERVER_TRACE_LEVEL_TENSORS)
                example_model_tracked ltac:(vm_compute; reflexivity)) as Hmir.
  unfold resolve.
  match goal with
  | |- level_ (match ?l with Some _ => _ | None => _ end) = _ =>
      destruct l as [s|] eqn:Hl
  end.
  - destruct (Hmir "m" s Hl) as [Hlevel _]. rewrite Hlevel; [reflexivity|].
    vm_compute in Hl. inversion Hl. reflexivity.
  - vm_compute in Hl. discriminate.
Defined.

(** X4: an update of a model - accepted, discarded or turned down - leaves
    the default setting, the global setting and the setting every other
    model resolves to as they were. *)
Theorem model_update_is_local
    (m m' : TraceManager) (model_name : string) (new_setting : NewSetting)
    (result : option string) :
  model_name <> "" ->
  UpdateTraceSetting m model_name new_setting = (m', result) ->
  global_default_ m' = global_default_ m
  /\ global_setting_ m' = global_setting_ m
  /\ forall other, other <> model_name -> resolve m' other = resolve m other.
Proof.
  intros Hne Hupd. apply is_global_false in Hne.
  unfold UpdateTraceSetting in Hupd. rewrite Hne in Hupd.
  destruct (UpdateTraceSettingInternal m model_name new_setting)
    as [m1 r1] eqn:Hstep.
  assert (m1 = m') by (destruct r1; inversion Hupd; reflexivity). subst m1.
  destruct (model_update_internal_local m model_name _ m' r1 Hne Hstep)
    as (Hd & Hgl & Hmod & _).
  split; [exact Hd|]. split; [exact Hgl|].
  intros other Hother. unfold resolve. rewrite Hmod by exact Hother.
  rewrite Hgl. reflexivity.
Qed.

Lemma model_update_is_local_witness :
  resolve (fst (UpdateTraceSetting example_manager "m" (update_rate 5))) "n"
  = resolve example_manager "n".
Proof.
  exact (proj2 (proj2 (model_update_is_local example_manager _ "m"
                         (update_rate 5) _ ltac:(discriminate) eq_refl))
           "n" ltac:(discriminate)).
Defined.

(** X5: an update of a model that is turned down leaves every model,
    this one included, resolving to the setting it resolved to before. *)
Theorem rejected_model_update_resolves_as_before
    (m m' : TraceManager) (model_name : string) (new_setting : NewSetting)
    (err : string) :
  model_name <> "" ->
  UpdateTraceSetting m model_name new_setting = (m', Some err) ->
  forall name, resolve m' name = resolve m name.
Proof.
  intros Hne Hupd. apply is_global_false in Hne.
  unfold UpdateTraceSetting in Hupd. rewrite Hne in Hupd.
  destruct (UpdateTraceSettingInternal m model_name new_setting)
    as [m1 r1] eqn:Hstep.
  destruct r1 as [err1|]; inversion Hupd; subst.
  destruct (rejected_update_keeps_policies m model_name _ m' err Hstep)
    as (_ & Hgl & Hmod).
  intros name. unfold resolve. rewrite Hmod, Hgl. reflexivity.
Qed.

Lemma rejected_model_update_resolves_as_before_witness :
  resolve (fst (UpdateTraceSetting example_manager "m" (update_rate 0))) "m"
  = resolve example_manager "m".
Proof.
  exact (rejected_model_update_resolves_as_before example_manager _ "m"
           (update_rate 0) _ ltac:(discriminate) eq_refl "m").
Defined.

(** X6: for a model that has no setting, an update that carries none of
    level, rate, count, log frequency and file path - whatever it says about
    the mode and the backend options, and whatever it clears - succeeds and
    changes nothing: the model keeps resolving to the global setting. *)
Theorem update_without_sampling_field_is_noop
    (m : TraceManager) (model_name : string) (new_setting : NewSetting) :
  model_name <> "" ->
  model_settings_ m !! model_name = None ->
  new_level_ new_setting = None -> new_rate_ new_setting = None ->
  new_count_ new_setting = None -> new_log_frequency_ new_setting = None ->
  new_filepath_ new_setting = None ->
  UpdateTraceSetting m model_name new_setting = (m, None).
Proof.
  intros Hne Hl H1 H2 H3 H4 H5. apply is_global_false in Hne.
  unfold UpdateTraceSetting, UpdateTraceSettingInternal.
  rewrite Hne, Hl, H1, H2, H3, H4, H5. unfold specified_flag.
  destruct (clear_level_ new_setting), (clear_rate_ new_setting),
    (clear_count_ new_setting), (clear_log_frequency_ new_setting),
    (clear_filepath_ new_setting); cbn; rewrite ?Hne;
    rewrite delete_id by exact Hl; destruct m; reflexivity.
Qed.

Lemma update_without_sampling_field_is_noop_witness :
  UpdateTraceSetting example_manager "m"
    (update_config_map [("1", [("url", "http://localhost:4318")])])
  = (example_manager, None).
Proof.
  exact (update_without_sampling_field_is_noop example_manager "m"
           (update_config_map [("1", [("url", "http://localhost:4318")])])
           ltac:(discriminate) eq_refl eq_refl eq_refl eq_refl eq_refl eq_refl).
Defined.

(** X7: an update of the global setting, whatever its result, leaves the
    default setting as it was and does not touch the setting of a model that
    is not in the set of mirroring models. *)
Theorem global_update_skips_untracked_models
    (m m' : TraceManager) (new_setting : NewSetting) (result : option string)
    (model_name : string) :
  "" ∉ fallback_used_models_ m ->
  model_name ∉ fallback_used_models_ m ->
  UpdateTraceSetting m "" new_setting = (m', result) ->
  global_default_ m' = global_default_ m
  /\ model_settings_ m' !! model_name = model_settings_ m !! model_name.
Proof.
  intros Hempty Hout Hupd. unfold UpdateTraceSetting in Hupd.
  destruct (UpdateTraceSettingInternal m "" new_setting) as [m1 r1] eqn:Hstep.
  destruct (global_update_internal_models m new_setting m1 r1 Hstep)
    as (Hd1 & Hmod1 & Hset1).
  destruct r1 as [err|].
  - inversion Hupd; subst. rewrite Hmod1. auto.
  - change (is_global "") with true in Hupd.
    assert (Hnames : Forall (λ name, name <> "")
                       (elements (fallback_used_models_ m1))).
    { apply elements_without_empty_name. rewrite Hset1. exact Hempty. }
    destruct (update_fallback_models_local _ m1 m' result Hnames Hupd)
      as (Hd & _ & Hmod & _).
    split; [congruence|]. rewrite Hmod, Hmod1; [reflexivity|].
    rewrite elem_of_elements, Hset1. exact Hout.
Qed.

Lemma global_update_skips_untracked_models_witness :
  model_settings_
    (fst (UpdateTraceSetting
            (fst (UpdateTraceSetting example_manager "m" (update_all_fields 5)))
            "" (update_level TRITONSERVER_TRACE_LEVEL_TENSORS))) !! "m"
  = model_settings_
      (fst (UpdateTraceSetting example_manager "m" (update_all_fields 5))) !! "m".
Proof.
  refine (proj2 (global_update_skips_untracked_models
                   (fst (UpdateTraceSetting example_manager "m"
                           (update_all_fields 5)))
                   _ (update_level TRITONSERVER_TRACE_LEVEL_TENSORS) _ "m"
                   _ _ eq_refl)).
  - vm_compute. discriminate.
  - vm_compute. discriminate.
Defined.

Lemma store_accepted_internal m model_name new_setting m' result :
  store_accepted m ->
  UpdateTraceSettingInternal m model_name new_setting = (m', result) ->
  store_accepted m'.
Proof.
  intros [Hgl Hmod]. unfold UpdateTraceSettingInternal.
  destruct (negb (is_global model_name) && _ && _)%bool.
  { intros Heq; inversion Heq; subst. split; [exact Hgl|].
    apply map_Forall_delete. exact Hmod. }
  match goal with
  | |- context [if negb (Valid ?l) && negb ?d then _ else _] =>
      destruct (Valid l) eqn:Hv; destruct d eqn:Hd; cbn [negb andb]
  end.
  all: destruct (is_global model_name);
    intros Heq; inversion Heq; subst; split; cbn;
    try exact Hgl; try exact Hmod;
    try (apply map_Forall_insert_2; [|exact Hmod]);
    first [ left; exact Hv | right; apply Z.eqb_eq in Hd; exact Hd ].
Qed.

Lemma store_accepted_loop names m m' result :
  store_accepted m ->
  update_fallback_models m names = (m', result) ->
  store_accepted m'.
Proof.
  revert m. induction names as [|name rest IH]; intros m Hinv Hrun.
  - inversion Hrun; subst. exact Hinv.
  - cbn [update_fallback_models] in Hrun.
    destruct (UpdateTraceSettingInternal m name NewSetting_default)
      as [m1 r1] eqn:Hstep.
    pose proof (store_accepted_internal m name _ m1 r1 Hinv Hstep) as Hinv1.
    destruct r1 as [err|].
    + inversion Hrun; subst. exact Hinv1.
    + eapply IH; eassumption.
Qed.

(** X8: when the global setting and every model setting are valid or have
    tracing disabled, they still are after any update, whatever its result:
    no update installs an enabled setting with rate 0, or an enabled
    local-mode setting without a file name. *)
Theorem updates_install_accepted_settings
    (m m' : TraceManager) (model_name : string) (new_setting : NewSetting)
    (result : option string) :
  store_accepted m ->
  UpdateTraceSetting m model_name new_setting = (m', result) ->
  store_accepted m'.
Proof.
  intros Hinv Hupd. unfold UpdateTraceSetting in Hupd.
  destruct (UpdateTraceSettingInternal m model_name new_setting)
    as [m1 r1] eqn:Hstep.
  pose proof (store_accepted_internal m model_name _ m1 r1 Hinv Hstep) as Hinv1.
  destruct r1 as [err|].
  - inversion Hupd; subst. exact Hinv1.
  - destruct (is_global model_name).
    + eapply store_accepted_loop; eassumption.
    + inversion Hupd; subst. exact Hinv1.
Qed.

Lemma example_manager_accepted : store_accepted example_manager.
Proof. split; [left; reflexivity | apply map_Forall_empty]. Qed.

Lemma updates_install_accepted_settings_witness :
  accepted
    (global_setting_
       (fst (UpdateTraceSetting example_manager ""
               (update_level TRITONSERVER_TRACE_LEVEL_DISABLED)))).
Proof.
  exact (proj1 (updates_install_accepted_settings example_manager _ ""
                  (update_level TRITONSERVER_TRACE_LEVEL_DISABLED) _
                  example_manager_accepted eq_refl)).
Defined.

(** ** Sampling *)

Lemma sample_call_configuration s engine_outcome :
  same_configuration s (TraceSetting_SampleTrace s engine_outcome).1.
Proof.
  unfold TraceSetting_SampleTrace, sample_decision.
  destruct (Valid s); cbn [negb]; [|cbn; unfold same_configuration; tauto].
  destruct (_ && _); destruct (_ =? 0); destruct engine_outcome; cbn;
    unfold same_configuration; tauto.
Qed.

Lemma sample_call_budget s engine_outcome :
  let s' := (TraceSetting_SampleTrace s engine_outcome).1 in
  (0 <= count_ s ->
     0 <= count_ s' /\ count_ s' + created_ s' = count_ s + created_ s)
  /\ (count_ s < 0 -> count_ s' = count_ s /\ created_ s' = created_ s).
Proof.
  unfold TraceSetting_SampleTrace, sample_decision.
  destruct (Valid s); cbn [negb]; [|cbn; lia].
  destruct ((sample_ s + 1) mod rate_ s =? 0); cbn [andb];
    destruct (Z.ltb_spec 0 (count_ s)); destruct engine_outcome; cbn; lia.
Qed.

(** X9: over any run of sampling calls, whether the engine delivers the
    handles or not, a budget that is not negative stays so and the remaining
    budget plus the created counter keeps its value; a negative budget and
    the created counter of its setting never move. *)
Theorem budget_plus_created_is_constant
    (s : TraceSetting) (engines : list (option Z)) :
  (0 <= count_ s ->
     0 <= count_ (after_calls s engines)
     /\ count_ (after_calls s engines) + created_ (after_calls s engines)
        = count_ s + created_ s)
  /\ (count_ s < 0 ->
      count_ (after_calls s engines) = count_ s
      /\ created_ (after_calls s engines) = created_ s).
Proof.
  revert s. induction engines as [|e rest IH]; intros s; cbn [after_calls].
  - lia.
  - destruct (sample_call_budget s e) as [Hpos Hneg].
    destruct (IH (fst (TraceSetting_SampleTrace s e))) as [IHpos IHneg].
    cbn zeta in Hpos, Hneg. split; intros Hc.
    + destruct (Hpos Hc) as [H1 H2]. destruct (IHpos H1) as [H3 H4]. lia.
    + destruct (Hneg Hc) as [H1 H2].
      destruct (IHneg ltac:(cbn [fst] in *; lia)) as [H3 H4].
      cbn [fst] in *. lia.
Qed.

Lemma budget_plus_created_is_constant_witness :
  count_ (after_calls (example_setting 1 3 0) [Some 7; None; Some 9; Some 10])
  + created_ (after_calls (example_setting 1 3 0) [Some 7; None; Some 9; Some 10])
  = 3.
Proof.
  exact (proj2 (proj1 (budget_plus_created_is_constant (example_setting 1 3 0)
                         [Some 7; None; Some 9; Some 10])
                  ltac:(simpl; lia))).
Defined.

(** X10: a setting that is not valid - tracing disabled, rate 0, local
    mode without a file name, or a budget that is used up - is left exactly
    as it is by every sampling call, and every call returns without a
    trace. *)
Theorem invalid_setting_never_samples
    (s : TraceSetting) (engines : list (option Z)) :
  Valid s = false ->
  after_calls s engines = s
  /\ Forall (λ e, snd (TraceSetting_SampleTrace s e) = Returns None) engines.
Proof.
  intros Hv.
  assert (Hcall : forall e, TraceSetting_SampleTrace s e = (s, Returns None)).
  { intros e. unfold TraceSetting_SampleTrace, sample_decision.
    rewrite Hv. reflexivity. }
  split.
  - induction engines as [|e rest IH]; [reflexivity|].
    cbn [after_calls]. rewrite Hcall. exact IH.
  - apply Forall_forall. intros e _. rewrite Hcall. reflexivity.
Qed.

Lemma invalid_setting_never_samples_witness :
  after_calls
    (TraceSetting_new TRITONSERVER_TRACE_LEVEL_DISABLED 1 10 0 "/tmp/t"
       TRACE_MODE_TRITON [] false false false false false false false)
    [Some 7; Some 8]
  = TraceSetting_new TRITONSERVER_TRACE_LEVEL_DISABLED 1 10 0 "/tmp/t"
      TRACE_MODE_TRITON [] false false false false false false false.
Proof.
  exact (proj1 (invalid_setting_never_samples
                  (TraceSetting_new TRITONSERVER_TRACE_LEVEL_DISABLED 1 10 0
                     "/tmp/t" TRACE_MODE_TRITON [] false false false false
                     false false false)
                  [Some 7; Some 8] eq_refl)).
Defined.

(** X11: sampling through the manager moves the counters of one setting
    only.  The default setting and the set of mirroring models stay, every
    model keeps its configuration, a model with a setting of its own is not
    affected by the sampling of another name, and the models without a
    setting all draw on the counters of the global setting. *)
Theorem sampling_moves_one_setting
    (m m' : TraceManager) (model_name : string) (engine_outcome : option Z)
    (result : CallEnd (option Trace)) :
  TraceManager_SampleTrace m model_name engine_outcome = (m', result) ->
  global_default_ m' = global_default_ m
  /\ fallback_used_models_ m' = fallback_used_models_ m
  /\ (forall name, same_configuration (resolve m name) (resolve m' name))
  /\ (forall other, other <> model_name ->
        is_Some (model_settings_ m !! other) ->
        resolve m' other = resolve m other)
  /\ (model_settings_ m !! model_name = None ->
      forall other, model_settings_ m !! other = None ->
        resolve m' other
        = fst (TraceSetting_SampleTrace (global_setting_ m) engine_outcome))
  /\ (forall ts, result = Returns (Some ts) ->
        setting_ ts = resolve m' model_name
        /\ engine_outcome = Some (trace_id_ ts)
        /\ streams_ ts = ∅).
Proof.
  unfold TraceManager_SampleTrace.
  destruct (model_settings_ m !! model_name) as [s|] eqn:Hl.
  - pose proof (sample_call_configuration s engine_outcome) as Hconf.
    destruct (TraceSetting_SampleTrace s engine_outcome) as [s' ts] eqn:Hcall.
    assert (Hts : forall id, ts = Returns (Some id) -> engine_outcome = Some id).
    { unfold TraceSetting_SampleTrace in Hcall.
      destruct (sample_decision s) as [s1 d].
      destruct d; [destruct engine_outcome|]; inversion Hcall;
        intros id Hid; inversion Hid; reflexivity. }
    intros Heq; inversion Heq; subst m' result; clear Heq. cbn [fst] in Hconf.
    split; [reflexivity|]. split; [reflexivity|]. split; [|split; [|split]].
    + intros name. unfold resolve. cbn [model_settings_ global_setting_].
      destruct (decide (name = model_name)) as [->|Hne].
      * rewrite lookup_insert_eq, Hl. exact Hconf.
      * rewrite lookup_insert_ne by congruence.
        destruct (model_settings_ m !! name); unfold same_configuration; tauto.
    + intros other Hne _. unfold resolve. cbn [model_settings_ global_setting_].
      rewrite lookup_insert_ne by congruence. reflexivity.
    + discriminate.
    + intros t Ht. destruct ts as [[id|]|]; inversion Ht; subst t.
      unfold resolve. cbn. rewrite lookup_insert_eq.
      rewrite (Hts id eq_refl). auto.
  - pose proof (sample_call_configuration (global_setting_ m) engine_outcome)
      as Hconf.
    destruct (TraceSetting_SampleTrace (global_setting_ m) engine_outcome)
      as [s' ts] eqn:Hcall.
    assert (Hts : forall id, ts = Returns (Some id) -> engine_outcome = Some id).
    { unfold TraceSetting_SampleTrace in Hcall.
      destruct (sample_decision (global_setting_ m)) as [s1 d].
      destruct d; [destruct engine_outcome|]; inversion Hcall;
        intros id Hid; inversion Hid; reflexivity. }
    intros Heq; inversion Heq; subst m' result; clear Heq. cbn [fst] in Hconf.
    split; [reflexivity|]. split; [reflexivity|]. split; [|split; [|split]].
    + intros name. unfold resolve. cbn [model_settings_ global_setting_].
      destruct (model_settings_ m !! name);
        [unfold same_configuration; tauto | exact Hconf].
    + intros other Hne [x Hx]. unfold resolve. cbn [model_settings_].
      rewrite Hx. reflexivity.
    + intros _ other Hother. unfold resolve. cbn. rewrite Hother. reflexivity.
    + intros t Ht. destruct ts as [[id|]|]; inversion Ht; subst t.
      unfold resolve. cbn. rewrite Hl.
      rewrite (Hts id eq_refl). auto.
Qed.

Lemma sampling_moves_one_setting_witness :
  resolve (fst (TraceManager_SampleTrace example_manager "a" (Some 7))) "b"
  = fst (TraceSetting_SampleTrace (global_setting_ example_manager) (Some 7)).
Proof.
  exact (proj1 (proj2 (proj2 (proj2 (proj2
           (sampling_moves_one_setting example_manager _ "a" (Some 7) _
              eq_refl))))) eq_refl "b" eq_refl).
Defined.

(** ** What a trace holds *)

Lemma with_commas_app a b : with_commas (a ++ b) = with_commas a +:+ with_commas b.
Proof.
  induction a as [|t a IH]; [reflexivity|].
  cbn [with_commas app]. rewrite IH, !str_app_assoc. reflexivity.
Qed.

Lemma extended_app old a b : extended old (a ++ b) = extended (extended old a) b.
Proof.
  destruct old as [content|]; cbn [extended].
  - rewrite with_commas_app, str_app_assoc. reflexivity.
  - destruct a as [|t a]; [reflexivity|].
    cbn [comma_joined extended app]. rewrite with_commas_app, str_app_assoc.
    reflexivity.
Qed.

Lemma extended_one old text :
  extended old [text]
  = Some (match old with Some content => content +:+ "," | None => "" end
          +:+ text).
Proof.
  destruct old as [content|]; cbn [extended comma_joined with_commas].
  - rewrite !str_app_nil_r, str_app_assoc. reflexivity.
  - rewrite str_app_nil_r. reflexivity.
Qed.

Section SessionTextProperties.
Context {engine : EngineApi} {container : ContainerApi}.

Lemma TraceActivity_trace_id trace activity timestamp_ns ts :
  trace_id_ (TraceActivity trace activity timestamp_ns ts) = trace_id_ ts.
Proof. unfold TraceActivity. destruct (mode_ (setting_ ts)); reflexivity. Qed.

Lemma CaptureTimestamp_trace_id ts name timestamp_ns :
  trace_id_ (CaptureTimestamp ts name timestamp_ns) = trace_id_ ts.
Proof.
  unfold CaptureTimestamp. destruct (negb _); [|reflexivity].
  destruct (mode_ (setting_ ts)); reflexivity.
Qed.

Lemma record_event_trace_id ts ev : trace_id_ (record_event ts ev) = trace_id_ ts.
Proof.
  destruct ev; [apply TraceActivity_trace_id | apply CaptureTimestamp_trace_id |].
  apply TraceTensorActivity_streams.
Qed.

(** A tensor event that is not dropped puts its text behind the begin
    block. *)
Lemma TraceTensorActivity_text trace activity name datatype base byte_size
    shape memory_type host_copy buffer_base ts :
  mode_ (setting_ ts) = TRACE_MODE_TRITON ->
  tensor_activity_supported activity = true ->
  tensor_buffer memory_type base host_copy = Some buffer_base ->
  let id := trace_handle_id trace in
  streams_ (fst (TraceTensorActivity trace activity name datatype base
                   byte_size shape memory_type host_copy ts))
  = stream_put id
      (tensor_text id activity name datatype buffer_base byte_size shape)
      (stream_begin id (streams_ ts)).
Proof.
  intros Hmode Hact Hbuf id. unfold TraceTensorActivity, tensor_text.
  rewrite Hact. cbn [negb]. fold (tensor_buffer memory_type base host_copy).
  rewrite Hbuf, Hmode. fold id. cbv zeta.
  destruct (bytes_loop buffer_base byte_size (element_count_of shape)
              (Z.to_nat (element_count_of shape)) 0 0)
    as [loop_text finished].
  destruct datatype; try destruct finished;
    cbn [fst streams_ set_streams];
    rewrite ?stream_put_put, ?str_app_assoc, ?str_app_nil_r; reflexivity.
Qed.

Lemma stream_written id text (streams : gmap Z string) other :
  stream_put id text (stream_begin id streams) !! other
  = if bool_decide (id = other) then extended (streams !! other) [text]
    else streams !! other.
Proof.
  rewrite stream_begin_put. destruct (decide (id = other)) as [->|Hne].
  - rewrite bool_decide_eq_true_2 by reflexivity.
    rewrite lookup_insert_eq, extended_one. unfold stream_prefix.
    destruct (streams !! other); reflexivity.
  - rewrite bool_decide_eq_false_2 by exact Hne.
    rewrite lookup_insert_ne by exact Hne. reflexivity.
Qed.

Lemma texts_for_cons s trace_id id ev events :
  texts_for s trace_id id (ev :: events)
  = (match event_output s trace_id ev with
     | Some (i, text) => if bool_decide (i = id) then [text] else []
     | None => []
     end ++ texts_for s trace_id id events)%list.
Proof.
  unfold texts_for. change (omap ?f (ev :: events))
    with (match f ev with Some y => y :: omap f events | None => omap f events end).
  cbv beta. destruct (event_output s trace_id ev) as [[i text]|];
    [destruct (bool_decide (i = id))|]; reflexivity.
Qed.

(** One event extends the stream of the id it writes to and no other. *)
Lemma record_event_stream ts ev id :
  streams_ (record_event ts ev) !! id
  = extended (streams_ ts !! id)
      (texts_for (setting_ ts) (trace_id_ ts) id [ev]).
Proof.
  assert (Hnone : forall old : option string, old = extended old []).
  { intros [content|]; cbn; rewrite ?str_app_nil_r; reflexivity. }
  rewrite texts_for_cons. change (texts_for _ _ _ []) with (@nil string).
  unfold event_output.
  destruct ev as [trace activity timestamp_ns | name timestamp_ns
                 | trace activity name datatype base byte_size shape memory_type
                     host_copy];
    cbn [record_event].
  - unfold TraceActivity. destruct (mode_ (setting_ ts)); [|apply Hnone].
    cbn [streams_ set_streams].
    destruct (decide (activity = TRITONSERVER_TRACE_REQUEST_START)) as [Ha|Ha].
    + rewrite !(bool_decide_eq_true_2 _ Ha).
      rewrite stream_put_put, stream_written.
      destruct (bool_decide (trace_handle_id trace = id));
        [reflexivity | apply Hnone].
    + rewrite !(bool_decide_eq_false_2 _ Ha).
      rewrite stream_written, str_app_nil_l.
      destruct (bool_decide (trace_handle_id trace = id));
        [reflexivity | apply Hnone].
  - unfold CaptureTimestamp. destruct (mode_ (setting_ ts)).
    + destruct (negb _); [|apply Hnone].
      cbn [streams_ set_streams]. rewrite stream_written.
      destruct (bool_decide (trace_id_ ts = id)); [reflexivity | apply Hnone].
    + destruct (negb _); apply Hnone.
  - destruct (mode_ (setting_ ts)) eqn:Hmode.
    + destruct (tensor_activity_supported activity) eqn:Hact.
      * destruct (tensor_buffer memory_type base host_copy) as [buffer_base|]
          eqn:Hbuf.
        -- rewrite (TraceTensorActivity_text _ _ _ _ _ _ _ _ _ buffer_base)
             by assumption.
           rewrite stream_written.
           destruct (bool_decide (trace_handle_id trace = id));
             [reflexivity | apply Hnone].
        -- unfold TraceTensorActivity. rewrite Hact. cbn [negb].
           fold (tensor_buffer memory_type base host_copy). rewrite Hbuf.
           apply Hnone.
      * unfold TraceTensorActivity. rewrite Hact. apply Hnone.
    + unfold TraceTensorActivity.
      destruct (tensor_activity_supported activity); cbn [negb fst];
        [|apply Hnone].
      destruct (if bool_decide _ then host_copy else Some base);
        [rewrite Hmode|]; apply Hnone.
Qed.

Lemma record_events_stream events ts id :
  streams_ (record_events ts events) !! id
  = extended (streams_ ts !! id)
      (texts_for (setting_ ts) (trace_id_ ts) id events).
Proof.
  revert ts. induction events as [|ev events IH]; intros ts.
  - cbn. destruct (streams_ ts !! id); cbn; rewrite ?str_app_nil_r; reflexivity.
  - change (record_events ts (ev :: events))
      with (record_events (record_event ts ev) events).
    rewrite IH, record_event_stream, record_event_setting, record_event_trace_id.
    rewrite <- extended_app. f_equal.
    rewrite !texts_for_cons. change (texts_for _ _ _ []) with (@nil string).
    rewrite app_nil_r. reflexivity.
Qed.

Lemma stream_after_events
    (s : TraceSetting) (trace_id id : Z) (events : list SessionEvent) :
  streams_ (record_events (Trace_new s trace_id) events) !! id
  = comma_joined (texts_for s trace_id id events).
Proof.
  rewrite record_events_stream. cbn [Trace_new streams_ setting_ trace_id_].
  rewrite lookup_empty. reflexivity.
Qed.

(** X12: the stream a trace holds for an id is made of the texts of the
    events for that id, in the order of the events and separated by commas,
    with no text of another id in between; an id no event wrote to has no
    stream. *)
Theorem streams_hold_texts_in_order
    (s : TraceSetting) (trace_id id : Z) (events : list SessionEvent) :
  streams_ (record_events (Trace_new s trace_id) events) !! id
  = comma_joined (texts_for s trace_id id events).
Proof. apply stream_after_events. Qed.

Lemma opentelemetry_run_ops ops s f fs :
  mode_ s = TRACE_MODE_OPENTELEMETRY ->
  exists s', fold_left run_op ops (s, f, fs) = (s', f, fs)
             /\ mode_ s' = TRACE_MODE_OPENTELEMETRY.
Proof.
  revert s. induction ops as [|op ops IH]; intros s Hmode.
  - exists s. auto.
  - cbn [fold_left]. destruct op as [engine_outcome | trace_id events].
    + cbn [run_op].
      destruct (sample_call_configuration s engine_outcome)
        as (_ & _ & _ & _ & Hm & _).
      apply IH. rewrite Hm. exact Hmode.
    + cbn [run_op]. unfold Trace_destroy. rewrite record_events_setting.
      cbn [setting_ Trace_new]. rewrite Hmode. apply IH, Hmode.
Qed.

(** X13: in the OpenTelemetry mode a trace never gets a stream, whatever
    events it receives, and a setting writes no file and leaves the sink as
    it is, whatever is sampled and collected during its life. *)
Theorem opentelemetry_keeps_no_local_output (s : TraceSetting) :
  mode_ s = TRACE_MODE_OPENTELEMETRY ->
  (forall trace_id events,
     streams_ (record_events (Trace_new s trace_id) events) = ∅)
  /\ (forall ops f fs, setting_lifetime s ops f fs = (f, fs)).
Proof.
  intros Hmode. split.
  - intros trace_id events. apply map_eq. intros id.
    rewrite stream_after_events, lookup_empty.
    replace (texts_for s trace_id id events) with (@nil string); [reflexivity|].
    induction events as [|ev events IH]; [reflexivity|].
    rewrite texts_for_cons. unfold event_output at 1. rewrite Hmode. exact IH.
  - intros ops f fs. unfold setting_lifetime.
    destruct (opentelemetry_run_ops ops s f fs Hmode) as (s' & -> & Hmode').
    unfold TraceSetting_destroy. rewrite Hmode'.
    rewrite bool_decide_eq_false_2 by discriminate. reflexivity.
Qed.

(** X14: a tensor event is dropped with one logged message and without a
    change to the trace when its activity is not one of the three tensor
    activities, when its buffer is on the device and no host copy can be
    made, or when the trace is in the OpenTelemetry mode. *)
Theorem unsupported_tensor_event_is_dropped
    (trace : InferenceTrace) (activity : TRITONSERVER_InferenceTraceActivity)
    (name : string) (datatype : TRITONSERVER_DataType) (base : list byte)
    (byte_size : Z) (shape : list Z) (memory_type : TRITONSERVER_MemoryType)
    (host_copy : option (list byte)) (ts : Trace) :
  tensor_activity_supported activity = false
  \/ (memory_type = TRITONSERVER_MEMORY_GPU /\ host_copy = None)
  \/ mode_ (setting_ ts) = TRACE_MODE_OPENTELEMETRY ->
  exists message,
    TraceTensorActivity trace activity name datatype base byte_size shape
      memory_type host_copy ts = (ts, [message]).
Proof.
  intros Hcase. unfold TraceTensorActivity.
  destruct (tensor_activity_supported activity) eqn:Hact; cbn [negb];
    [|eexists; reflexivity].
  destruct Hcase as [Hcase|[[Hmem Hcopy]|Hmode]]; [discriminate| |].
  - subst. rewrite bool_decide_eq_true_2 by reflexivity. eexists. reflexivity.
  - destruct (if bool_decide _ then host_copy else Some base);
      [rewrite Hmode|]; eexists; reflexivity.
Qed.

End SessionTextProperties.

Lemma opentelemetry_keeps_no_local_output_witness :
  setting_lifetime (engine := example_engine) (container := example_container)
    (TraceSetting_new TRITONSERVER_TRACE_LEVEL_TIMESTAMPS 1 10 1 ""
       TRACE_MODE_OPENTELEMETRY [] false false false false false false false)
    [OpSample (Some 7); tensor_trace 7] (TraceFile_new "") ∅
  = (TraceFile_new "", ∅).
Proof.
  exact (proj2 (opentelemetry_keeps_no_local_output (engine := example_engine)
                  (container := example_container)
                  (TraceSetting_new TRITONSERVER_TRACE_LEVEL_TIMESTAMPS 1 10 1
                     "" TRACE_MODE_OPENTELEMETRY [] false false false false
                     false false false) eq_refl) _ _ _).
Defined.

Lemma unsupported_tensor_event_is_dropped_witness :
  exists message,
    TraceTensorActivity (engine := example_engine) (example_handle 7 "")
      TRITONSERVER_TRACE_REQUEST_START "x" TRITONSERVER_TYPE_INT32 [] 0 [1]
      TRITONSERVER_MEMORY_CPU None (Trace_new (example_setting 1 10 0) 7)
    = (Trace_new (example_setting 1 10 0) 7, [message]).
Proof.
  exact (unsupported_tensor_event_is_dropped (engine := example_engine)
           (example_handle 7 "") TRITONSERVER_TRACE_REQUEST_START "x"
           TRITONSERVER_TYPE_INT32 [] 0 [1] TRITONSERVER_MEMORY_CPU None
           (Trace_new (example_setting 1 10 0) 7) (or_introl eq_refl)).
Defined.

(** ** Tensor payloads *)

Lemma byte_of_Z_value z : Z.of_N (Byte.to_N (byte_of_Z z)) = z mod 256.
Proof.
  unfold byte_of_Z.
  pose proof (Z.mod_pos_bound z 256 ltac:(lia)) as Hb.
  destruct (Byte.of_N (Z.to_N (z mod 256))) as [b|] eqn:Hof.
  - apply Byte.to_of_N in Hof. simpl. rewrite Hof. lia.
  - apply Byte.of_N_None_iff in Hof. lia.
Qed.

Lemma le_value_le_bytes width v :
  0 <= v < 256 ^ Z.of_nat width -> le_value (le_bytes width v) = v.
Proof.
  revert v. induction width as [|w IH]; intros v Hv.
  - cbn in *. lia.
  - cbn [le_bytes le_value]. rewrite byte_of_Z_value.
    rewrite Nat2Z.inj_succ, Z.pow_succ_r in Hv by lia.
    rewrite IH.
    + pose proof (Z.div_mod v 256 ltac:(lia)). lia.
    + split; [apply Z.div_pos; lia|]. apply Z.div_lt_upper_bound; lia.
Qed.

Lemma le_bytes_length width v : List.length (le_bytes width v) = width.
Proof.
  revert v. induction width as [|w IH]; intros v; [reflexivity|].
  cbn [le_bytes List.length]. rewrite IH. reflexivity.
Qed.

Lemma le_value_nonneg bs : 0 <= le_value bs.
Proof.
  induction bs as [|b bs IH]; cbn [le_value]; [lia|].
  pose proof (N2Z.is_nonneg (Byte.to_N b)). lia.
Qed.

Lemma bytes_at_middle (pre l post : list byte) :
  bytes_at (pre ++ l ++ post) (Z.of_nat (List.length pre))
    (Z.of_nat (List.length l)) = l.
Proof.
  unfold bytes_at. rewrite !Nat2Z.id.
  rewrite drop_app_length, take_app_length. reflexivity.
Qed.

Section BytesProperties.
Context {engine : EngineApi}.

(** One round of the loop on an element that fits. *)
Lemma bytes_loop_step base byte_size element_count n e offset len :
  offset + 4 <= byte_size ->
  le_value (bytes_at base offset 4) = len ->
  offset + 4 + len <= byte_size ->
  bytes_loop base byte_size element_count (S n) e offset
  = let '(rest, finished) :=
      bytes_loop base byte_size element_count n (e + 1) (offset + 4 + len) in
    ((escaped_quote +:+ String.string_of_list_byte (bytes_at base (offset + 4) len)
      +:+ escaped_quote +:+ (if e <? element_count - 1 then "," else ""))
     +:+ rest, finished).
Proof.
  intros Hprefix Hlen Hbody. cbn [bytes_loop].
  destruct (Z.ltb_spec byte_size (offset + 4)) as [Hlt|_]; [lia|].
  rewrite Hlen.
  destruct (Z.ltb_spec byte_size (offset + 4 + len)) as [Hlt|_]; [lia|].
  reflexivity.
Qed.

Lemma encode_bytes_cons element rest :
  encode_bytes (element :: rest)
  = (le_bytes 4 (Z.of_nat (List.length element)) ++ element ++ encode_bytes rest)%list.
Proof. unfold encode_bytes, encode_element. cbn [map concat]. apply eq_sym, app_assoc. Qed.

(** The loop on a buffer that holds, behind [pre], the encoding of
    [elements] and then anything. *)
Lemma bytes_loop_decodes_from (elements : list (list byte)) :
  Forall (λ element, Z.of_nat (List.length element) < 2 ^ 32) elements ->
  forall (pre post : list byte) (byte_size e : Z),
    Z.of_nat (List.length (pre ++ encode_bytes elements)) <= byte_size ->
    bytes_loop (pre ++ encode_bytes elements ++ post) byte_size
      (e + Z.of_nat (List.length elements)) (List.length elements) e
      (Z.of_nat (List.length pre))
    = (quoted_elements elements, true).
Proof.
  induction elements as [|element rest IH]; intros Hall pre post byte_size e Hsize;
    [reflexivity|].
  inversion Hall as [|? ? Hlen Hrest]; subst.
  rewrite encode_bytes_cons in *.
  set (header := le_bytes 4 (Z.of_nat (List.length element))) in *.
  assert (Hheader : List.length header = 4%nat) by apply le_bytes_length.
  rewrite !length_app, Hheader in Hsize.
  rewrite <- !app_assoc.
  cbn [List.length quoted_elements].
  rewrite (bytes_loop_step _ _ _ _ _ _ (Z.of_nat (List.length element))).
  - replace (Z.of_nat (List.length pre) + 4 + Z.of_nat (List.length element))
      with (Z.of_nat (List.length (pre ++ header ++ element)))
      by (rewrite !length_app, Hheader; lia).
    replace (pre ++ header ++ element ++ encode_bytes rest ++ post)%list
      with ((pre ++ header ++ element) ++ encode_bytes rest ++ post)%list
      by (rewrite <- !app_assoc; reflexivity).
    replace (e + Z.of_nat (S (List.length rest)))
      with (e + 1 + Z.of_nat (List.length rest)) by lia.
    rewrite (IH Hrest)
      by (rewrite !length_app in *; rewrite Hheader; lia).
    cbv beta iota. f_equal.
    replace (bytes_at ((pre ++ header ++ element) ++ encode_bytes rest ++ post)
               (Z.of_nat (List.length pre) + 4) (Z.of_nat (List.length element)))
      with element.
    + f_equal. f_equal. f_equal. f_equal.
      destruct rest as [|r rest'].
      * destruct (Z.ltb_spec e (e + 1 + Z.of_nat (@List.length (list byte) []) - 1));
          [cbn [List.length] in *; lia | reflexivity].
      * destruct (Z.ltb_spec e (e + 1 + Z.of_nat (List.length (r :: rest')) - 1));
          [reflexivity | cbn [List.length] in *; lia].
    + symmetry.
      replace ((pre ++ header ++ element) ++ encode_bytes rest ++ post)%list
        with ((pre ++ header) ++ element ++ (encode_bytes rest ++ post))%list
        by (rewrite <- !app_assoc; reflexivity).
      replace (Z.of_nat (List.length pre) + 4)
        with (Z.of_nat (List.length (pre ++ header)))
        by (rewrite length_app, Hheader; lia).
      apply bytes_at_middle.
  - lia.
  - change 4 with (Z.of_nat 4) at 1. rewrite <- Hheader.
    rewrite bytes_at_middle. unfold header.
    apply le_value_le_bytes. change (256 ^ Z.of_nat 4) with (2 ^ 32). lia.
  - lia.
Qed.

(** A declared size that ends inside the encoding stops the loop early. *)
Lemma bytes_loop_stops_short (elements : list (list byte)) :
  Forall (λ element, Z.of_nat (List.length element) < 2 ^ 32) elements ->
  forall (pre post : list byte) (byte_size element_count e : Z),
    Z.of_nat (List.length pre) <= byte_size ->
    byte_size < Z.of_nat (List.length (pre ++ encode_bytes elements)) ->
    snd (bytes_loop (pre ++ encode_bytes elements ++ post) byte_size
           element_count (List.length elements) e (Z.of_nat (List.length pre)))
    = false.
Proof.
  induction elements as [|element rest IH];
    intros Hall pre post byte_size element_count e Hpre Hsize.
  - unfold encode_bytes in Hsize. cbn [map concat] in Hsize.
    rewrite app_nil_r in Hsize. lia.
  - inversion Hall as [|? ? Hlen Hrest]; subst.
    rewrite encode_bytes_cons in *.
    set (header := le_bytes 4 (Z.of_nat (List.length element))) in *.
    assert (Hheader : List.length header = 4%nat) by apply le_bytes_length.
    rewrite <- !app_assoc.
    assert (Hread : le_value
              (bytes_at (pre ++ header ++ element ++ encode_bytes rest ++ post)
                 (Z.of_nat (List.length pre)) 4)
            = Z.of_nat (List.length element)).
    { change 4 with (Z.of_nat 4) at 1. rewrite <- Hheader.
      rewrite bytes_at_middle. unfold header.
      apply le_value_le_bytes. change (256 ^ Z.of_nat 4) with (2 ^ 32). lia. }
    cbn [List.length].
    destruct (Z.ltb_spec byte_size (Z.of_nat (List.length pre) + 4)) as [Hlt|Hge].
    { cbn [bytes_loop].
      destruct (Z.ltb_spec byte_size (Z.of_nat (List.length pre) + 4));
        [reflexivity | lia]. }
    destruct (Z.ltb_spec byte_size
                (Z.of_nat (List.length pre) + 4 + Z.of_nat (List.length element)))
      as [Hlt|Hge'].
    { cbn [bytes_loop].
      destruct (Z.ltb_spec byte_size (Z.of_nat (List.length pre) + 4)); [lia|].
      rewrite Hread.
      destruct (Z.ltb_spec byte_size
                  (Z.of_nat (List.length pre) + 4 + Z.of_nat (List.length element)));
        [reflexivity | lia]. }
    rewrite (bytes_loop_step _ _ _ _ _ _ (Z.of_nat (List.length element)))
      by (exact Hread || lia).
    replace (Z.of_nat (List.length pre) + 4 + Z.of_nat (List.length element))
      with (Z.of_nat (List.length (pre ++ header ++ element)))
      by (rewrite !length_app, Hheader; lia).
    replace (pre ++ header ++ element ++ encode_bytes rest ++ post)%list
      with ((pre ++ header ++ element) ++ encode_bytes rest ++ post)%list
      by (rewrite <- !app_assoc; reflexivity).
    specialize (IH Hrest (pre ++ header ++ element)%list post byte_size
                  element_count (e + 1)).
    destruct (bytes_loop _ _ _ _ _ _) as [text finished]. cbn [snd] in *.
    apply IH.
    + rewrite !length_app, Hheader. lia.
    + rewrite !length_app in *. rewrite Hheader in *. lia.
Qed.

Lemma quoted_elements_joined (elements : list (list byte)) :
  quoted_elements elements
  = String.concat ","
      (map (λ element,
              escaped_quote +:+ String.string_of_list_byte element
              +:+ escaped_quote) elements).
Proof.
  induction elements as [|element rest IH]; [reflexivity|].
  cbn [quoted_elements map]. rewrite IH.
  destruct rest as [|r rest'].
  - cbn [map String.concat]. rewrite !str_app_assoc, !str_app_nil_r. reflexivity.
  - cbn [map String.concat]. rewrite !str_app_assoc. reflexivity.
Qed.

(** What the stream of a trace id holds after the begin block and three
    insertions. *)
Lemma tensor_fragment_written id a b c (streams : gmap Z string) :
  stream_put id c (stream_put id b (stream_put id a (stream_begin id streams)))
    !! id
  = Some (stream_prefix id streams +:+ a +:+ b +:+ c).
Proof.
  rewrite !stream_put_put, stream_begin_put, lookup_insert_eq.
  rewrite ?str_app_assoc. reflexivity.
Qed.

(** X15: in the local mode a BYTES tensor whose buffer holds the elements
    in the engine's layout (a four-byte little-endian length before each), with the
    declared size covering them and the shape counting them, is written as
    one complete fragment: header, the elements between escaped quotes
    separated by commas, trailer; nothing is logged. *)
Theorem bytes_tensor_is_decoded
    (trace : InferenceTrace) (activity : TRITONSERVER_InferenceTraceActivity)
    (name : string) (elements : list (list byte)) (post : list byte)
    (byte_size : Z) (shape : list Z) (memory_type : TRITONSERVER_MemoryType)
    (host_copy : option (list byte)) (ts : Trace) :
  tensor_activity_supported activity = true ->
  memory_type <> TRITONSERVER_MEMORY_GPU ->
  mode_ (setting_ ts) = TRACE_MODE_TRITON ->
  Forall (λ element, Z.of_nat (List.length element) < 2 ^ 32) elements ->
  element_count_of shape = Z.of_nat (List.length elements) ->
  Z.of_nat (List.length (encode_bytes elements)) <= byte_size ->
  let id := trace_handle_id trace in
  let result :=
    TraceTensorActivity trace activity name TRITONSERVER_TYPE_BYTES
      (encode_bytes elements ++ post) byte_size shape memory_type host_copy ts in
  streams_ (fst result) !! id
  = Some (stream_prefix id (streams_ ts) +:+ tensor_header id activity name
          +:+ String.concat ","
                (map (λ element,
                        escaped_quote +:+ String.string_of_list_byte element
                        +:+ escaped_quote) elements)
          +:+ tensor_trailer TRITONSERVER_TYPE_BYTES shape)
  /\ snd result = [].
Proof.
  intros Hact Hmem Hmode Hall Hcount Hsize id result. subst result.
  unfold TraceTensorActivity. rewrite Hact, Hmode.
  rewrite bool_decide_eq_false_2 by exact Hmem. cbn [negb].
  fold id. rewrite Hcount, Nat2Z.id.
  pose proof (bytes_loop_decodes_from elements Hall [] post byte_size 0 Hsize)
    as Hloop.
  cbn [app List.length] in Hloop. change (Z.of_nat 0) with 0 in Hloop.
  rewrite Z.add_0_l in Hloop. rewrite Hloop.
  cbn [fst snd set_streams streams_].
  rewrite tensor_fragment_written, quoted_elements_joined.
  split; reflexivity.
Qed.

(** X16: in the local mode a BYTES tensor whose declared size ends inside
    the encoded elements never gets its trailer, whichever element is cut:
    the stream of the trace id ends with the header and the elements
    written before the return, and nothing is logged. *)
Theorem cut_bytes_tensor_has_no_trailer
    (trace : InferenceTrace) (activity : TRITONSERVER_InferenceTraceActivity)
    (name : string) (elements : list (list byte)) (post : list byte)
    (byte_size : Z) (shape : list Z) (memory_type : TRITONSERVER_MemoryType)
    (host_copy : option (list byte)) (ts : Trace) :
  tensor_activity_supported activity = true ->
  memory_type <> TRITONSERVER_MEMORY_GPU ->
  mode_ (setting_ ts) = TRACE_MODE_TRITON ->
  Forall (λ element, Z.of_nat (List.length element) < 2 ^ 32) elements ->
  element_count_of shape = Z.of_nat (List.length elements) ->
  0 <= byte_size < Z.of_nat (List.length (encode_bytes elements)) ->
  let id := trace_handle_id trace in
  let base := (encode_bytes elements ++ post)%list in
  let result :=
    TraceTensorActivity trace activity name TRITONSERVER_TYPE_BYTES
      base byte_size shape memory_type host_copy ts in
  streams_ (fst result) !! id
  = Some (stream_prefix id (streams_ ts) +:+ tensor_header id activity name
          +:+ fst (bytes_loop base byte_size (Z.of_nat (List.length elements))
                     (List.length elements) 0 0))
  /\ snd result = [].
Proof.
  intros Hact Hmem Hmode Hall Hcount Hsize id base result. subst result base.
  unfold TraceTensorActivity. rewrite Hact, Hmode.
  rewrite bool_decide_eq_false_2 by exact Hmem. cbn [negb].
  fold id. rewrite Hcount, Nat2Z.id.
  pose proof (bytes_loop_stops_short elements Hall [] post byte_size
                (Z.of_nat (List.length elements)) 0) as Hloop.
  cbn [app List.length] in Hloop. change (Z.of_nat 0) with 0 in Hloop.
  specialize (Hloop ltac:(lia) ltac:(lia)).
  destruct (bytes_loop _ _ _ _ _ _) as [text finished]. cbn [snd fst] in *.
  subst finished. cbn [fst snd set_streams streams_].
  rewrite stream_put_put, stream_begin_put, lookup_insert_eq.
  rewrite ?str_app_assoc. split; reflexivity.
Qed.

End BytesProperties.

Lemma bytes_tensor_is_decoded_witness :
  streams_
    (fst (TraceTensorActivity (engine := example_engine)
            (example_handle 7 "") TRITONSERVER_TRACE_TENSOR_QUEUE_INPUT "x"
            TRITONSERVER_TYPE_BYTES
            (encode_bytes [[x61; x62]; [x63]]%byte ++ []) 11 [2]
            TRITONSERVER_MEMORY_CPU None
            (Trace_new (example_setting 1 10 0) 7))) !! 7
  = Some (stream_prefix 7 ∅
          +:+ tensor_header (engine := example_engine) 7
                TRITONSERVER_TRACE_TENSOR_QUEUE_INPUT "x"
          +:+ String.concat ","
                (map (λ element,
                        escaped_quote +:+ String.string_of_list_byte element
                        +:+ escaped_quote) [[x61; x62]; [x63]]%byte)
          +:+ tensor_trailer (engine := example_engine)
                TRITONSERVER_TYPE_BYTES [2]).
Proof.
  refine (proj1
    (bytes_tensor_is_decoded (engine := example_engine)
       (example_handle 7 "") TRITONSERVER_TRACE_TENSOR_QUEUE_INPUT "x"
       [[x61; x62]; [x63]]%byte [] 11 [2] TRITONSERVER_MEMORY_CPU None
       (Trace_new (example_setting 1 10 0) 7)
       eq_refl ltac:(discriminate) eq_refl _ eq_refl _)).
  - repeat constructor.
  - vm_compute. discriminate.
Defined.

Lemma cut_bytes_tensor_has_no_trailer_witness :
  snd (TraceTensorActivity (engine := example_engine)
         (example_handle 7 "") TRITONSERVER_TRACE_TENSOR_QUEUE_INPUT "x"
         TRITONSERVER_TYPE_BYTES
         (encode_bytes [[x61; x62]; [x63]]%byte ++ []) 8 [2]
         TRITONSERVER_MEMORY_CPU None
         (Trace_new (example_setting 1 10 0) 7))
  = [].
Proof.
  refine (proj2
    (cut_bytes_tensor_has_no_trailer (engine := example_engine)
       (example_handle 7 "") TRITONSERVER_TRACE_TENSOR_QUEUE_INPUT "x"
       [[x61; x62]; [x63]]%byte [] 8 [2] TRITONSERVER_MEMORY_CPU None
       (Trace_new (example_setting 1 10 0) 7)
       eq_refl ltac:(discriminate) eq_refl _ eq_refl _)).
  - repeat constructor.
  - vm_compute. split; [discriminate | reflexivity].
Defined.
(** ** Integer tensors *)

Lemma le_value_le_bytes_mod width v :
  le_value (le_bytes width v) = v mod 256 ^ Z.of_nat width.
Proof.
  revert v. induction width as [|w IH]; intros v.
  - cbn. rewrite Z.mod_1_r. reflexivity.
  - cbn [le_bytes le_value]. rewrite byte_of_Z_value, IH.
    rewrite Nat2Z.inj_succ, Z.pow_succ_r by lia.
    rewrite Z.rem_mul_r; [reflexivity | lia | apply Z.pow_pos_nonneg; lia].
Qed.

Lemma width_of_nonneg datatype : 0 <= width_of datatype.
Proof. destruct datatype; cbn; lia. Qed.

Lemma element_count_of_zero_from (shape : list Z) :
  fold_left (λ acc d, (acc * d) mod 2 ^ 64) shape 0 = 0.
Proof. induction shape as [|d rest IH]; [reflexivity | exact IH]. Qed.

Lemma element_count_of_zero (shape : list Z) :
  In 0 shape -> element_count_of shape = 0.
Proof.
  unfold element_count_of. generalize 1.
  induction shape as [|d rest IH]; intros acc Hin; [destruct Hin|].
  cbn [fold_left]. destruct Hin as [->|Hin].
  - rewrite Z.mul_0_r. apply element_count_of_zero_from.
  - apply IH, Hin.
Qed.

Section IntegerProperties.
Context {engine : EngineApi}.

(** What the loop prints for one value read back from memory. *)
Lemma element_text_value datatype v :
  is_unsigned datatype || is_signed datatype = true ->
  representable datatype v ->
  element_text datatype (le_bytes (Z.to_nat (width_of datatype)) v) = dec v.
Proof.
  intros Hkind Hv.
  destruct datatype; try discriminate Hkind;
    unfold representable in Hv; cbn [is_unsigned is_signed width_of] in Hv;
    cbn [element_text width_of]; rewrite le_value_le_bytes_mod;
    rewrite Z2Nat.id by lia.
  1-3: rewrite Z.mod_small; [reflexivity | ].
  1-3: change (256 ^ ?w) with (2 ^ (8 * w)); exact Hv.
  all: f_equal; unfold signed_value.
  all: match goal with
       | |- context [ (_ mod 256 ^ ?w) ] =>
           change (256 ^ w) with (2 ^ (8 * w)) in *;
           set (M := 2 ^ (8 * w)) in *;
           set (H := 2 ^ (8 * w - 1)) in *;
           assert (HM : M = 2 * H) by reflexivity;
           assert (HH : 0 < H) by reflexivity
       end.
  all: destruct (Z_lt_le_dec v 0) as [Hneg|Hpos].
  all: try (rewrite <- (Z.mod_add v 1 M) by lia;
            rewrite Z.mod_small by lia;
            destruct (Z.ltb_spec (v + 1 * M) H); lia).
  all: rewrite Z.mod_small by lia; destruct (Z.ltb_spec v H); lia.
Qed.

Lemma encode_values_cons datatype v rest :
  encode_values datatype (v :: rest)
  = (le_bytes (Z.to_nat (width_of datatype)) v ++ encode_values datatype rest)%list.
Proof. reflexivity. Qed.

(** The loop of a fixed-width datatype on a buffer that holds, behind
    [pre], the given values and then anything. *)
Lemma fixed_loop_values datatype (values : list Z) :
  is_unsigned datatype || is_signed datatype = true ->
  Forall (representable datatype) values ->
  forall (pre post : list byte) (e : Z),
    Z.of_nat (List.length pre) = e * width_of datatype ->
    fixed_loop datatype (pre ++ encode_values datatype values ++ post)
      (e + Z.of_nat (List.length values)) (List.length values) e
    = String.concat "," (map dec values).
Proof.
  intros Hkind. induction values as [|v rest IH]; intros Hall pre post e Hpre;
    [reflexivity|].
  inversion Hall as [|? ? Hv Hrest]; subst.
  rewrite encode_values_cons.
  set (cell := le_bytes (Z.to_nat (width_of datatype)) v) in *.
  assert (Hcell : Z.of_nat (List.length cell) = width_of datatype).
  { unfold cell. rewrite le_bytes_length.
    apply Z2Nat.id, width_of_nonneg. }
  rewrite <- !app_assoc. cbn [List.length fixed_loop map].
  rewrite <- Hpre. rewrite <- Hcell at 1. rewrite bytes_at_middle.
  unfold cell at 1. rewrite (element_text_value _ _ Hkind Hv).
  replace (pre ++ cell ++ encode_values datatype rest ++ post)%list
    with ((pre ++ cell) ++ encode_values datatype rest ++ post)%list
    by (rewrite <- !app_assoc; reflexivity).
  replace (e + Z.of_nat (S (List.length rest)))
    with (e + 1 + Z.of_nat (List.length rest)) by lia.
  rewrite (IH Hrest) by (rewrite length_app; lia).
  destruct rest as [|v' rest'].
  - destruct (Z.ltb_spec e (e + 1 + Z.of_nat (@List.length Z []) - 1));
      [cbn [List.length] in *; lia|].
    cbn [map String.concat]. rewrite str_app_nil_l, str_app_nil_r. reflexivity.
  - destruct (Z.ltb_spec e (e + 1 + Z.of_nat (List.length (v' :: rest')) - 1));
      [|cbn [List.length] in *; lia].
    reflexivity.
Qed.

(** X17: in the local mode a tensor of a 16, 32 or 64-bit integer datatype,
    signed or unsigned, whose buffer holds the values as the machine stores
    them (little endian, two's complement) is written as one complete
    fragment whose data are the decimal values separated by commas; the
    declared byte size plays no part. *)
Theorem integer_tensor_prints_decimals
    (trace : InferenceTrace) (activity : TRITONSERVER_InferenceTraceActivity)
    (name : string) (datatype : TRITONSERVER_DataType) (values : list Z)
    (post : list byte) (byte_size : Z) (shape : list Z)
    (memory_type : TRITONSERVER_MemoryType) (host_copy : option (list byte))
    (ts : Trace) :
  tensor_activity_supported activity = true ->
  memory_type <> TRITONSERVER_MEMORY_GPU ->
  mode_ (setting_ ts) = TRACE_MODE_TRITON ->
  is_unsigned datatype || is_signed datatype = true ->
  Forall (representable datatype) values ->
  element_count_of shape = Z.of_nat (List.length values) ->
  let id := trace_handle_id trace in
  let result :=
    TraceTensorActivity trace activity name datatype
      (encode_values datatype values ++ post) byte_size shape memory_type
      host_copy ts in
  streams_ (fst result) !! id
  = Some (stream_prefix id (streams_ ts) +:+ tensor_header id activity name
          +:+ String.concat "," (map dec values)
          +:+ tensor_trailer datatype shape)
  /\ snd result = [].
Proof.
  intros Hact Hmem Hmode Hkind Hall Hcount id result. subst result.
  unfold TraceTensorActivity. rewrite Hact, Hmode.
  rewrite bool_decide_eq_false_2 by exact Hmem. cbn [negb].
  fold id. rewrite Hcount, Nat2Z.id.
  pose proof (fixed_loop_values datatype values Hkind Hall [] post 0 eq_refl)
    as Hloop.
  cbn [app] in Hloop. rewrite Z.add_0_l in Hloop.
  destruct datatype; try discriminate Hkind;
    rewrite Hloop; cbn [fst snd set_streams streams_];
    rewrite tensor_fragment_written; split; reflexivity.
Qed.

(** X18: in the local mode a tensor whose shape has a zero dimension is
    written, for every datatype but the invalid one, as a complete fragment
    with empty data: the buffer is not read and nothing is logged. *)
Theorem empty_tensor_has_empty_data
    (trace : InferenceTrace) (activity : TRITONSERVER_InferenceTraceActivity)
    (name : string) (datatype : TRITONSERVER_DataType) (base : list byte)
    (byte_size : Z) (shape : list Z) (memory_type : TRITONSERVER_MemoryType)
    (host_copy : option (list byte)) (ts : Trace) :
  tensor_activity_supported activity = true ->
  memory_type <> TRITONSERVER_MEMORY_GPU ->
  mode_ (setting_ ts) = TRACE_MODE_TRITON ->
  datatype <> TRITONSERVER_TYPE_INVALID ->
  In 0 shape ->
  let id := trace_handle_id trace in
  let result :=
    TraceTensorActivity trace activity name datatype base byte_size shape
      memory_type host_copy ts in
  streams_ (fst result) !! id
  = Some (stream_prefix id (streams_ ts) +:+ tensor_header id activity name
          +:+ tensor_trailer datatype shape)
  /\ snd result = [].
Proof.
  intros Hact Hmem Hmode Hvalid Hzero id result. subst result.
  unfold TraceTensorActivity. rewrite Hact, Hmode.
  rewrite bool_decide_eq_false_2 by exact Hmem. cbn [negb].
  fold id. rewrite (element_count_of_zero shape Hzero).
  change (Z.to_nat 0) with 0%nat.
  destruct datatype; try congruence;
    cbn [bytes_loop fixed_loop fst snd set_streams streams_];
    first [ rewrite tensor_fragment_written, str_app_nil_l
          | rewrite stream_put_put, stream_begin_put, lookup_insert_eq,
              ?str_app_assoc ];
    split; reflexivity.
Qed.

End IntegerProperties.

Lemma integer_tensor_prints_decimals_witness :
  streams_
    (fst (TraceTensorActivity (engine := example_engine)
            (example_handle 7 "") TRITONSERVER_TRACE_TENSOR_QUEUE_INPUT "x"
            TRITONSERVER_TYPE_INT16
            (encode_values TRITONSERVER_TYPE_INT16 [-2; 300] ++ []) 4 [2]
            TRITONSERVER_MEMORY_CPU None
            (Trace_new (example_setting 1 10 0) 7))) !! 7
  = Some (stream_prefix 7 ∅
          +:+ tensor_header (engine := example_engine) 7
                TRITONSERVER_TRACE_TENSOR_QUEUE_INPUT "x"
          +:+ String.concat "," (map dec [-2; 300])
          +:+ tensor_trailer (engine := example_engine)
                TRITONSERVER_TYPE_INT16 [2]).
Proof.
  refine (proj1
    (integer_tensor_prints_decimals (engine := example_engine)
       (example_handle 7 "") TRITONSERVER_TRACE_TENSOR_QUEUE_INPUT "x"
       TRITONSERVER_TYPE_INT16 [-2; 300] [] 4 [2] TRITONSERVER_MEMORY_CPU None
       (Trace_new (example_setting 1 10 0) 7)
       eq_refl ltac:(discriminate) eq_refl eq_refl _ eq_refl)).
  repeat constructor; vm_compute; discriminate.
Defined.

Lemma empty_tensor_has_empty_data_witness :
  snd (TraceTensorActivity (engine := example_engine)
         (example_handle 7 "") TRITONSERVER_TRACE_TENSOR_QUEUE_INPUT "x"
         TRITONSERVER_TYPE_FP32 [] 0 [3; 0] TRITONSERVER_MEMORY_CPU None
         (Trace_new (example_setting 1 10 0) 7))
  = [].
Proof.
  refine (proj2
    (empty_tensor_has_empty_data (engine := example_engine)
       (example_handle 7 "") TRITONSERVER_TRACE_TENSOR_QUEUE_INPUT "x"
       TRITONSERVER_TYPE_FP32 [] 0 [3; 0] TRITONSERVER_MEMORY_CPU None
       (Trace_new (example_setting 1 10 0) 7)
       eq_refl ltac:(discriminate) eq_refl ltac:(discriminate) _)).
  right; left; reflexivity.
Defined.
(** ** Runs of the sink *)

Section Collecting.
Context {container : ContainerApi}.

(** The counters after one call of [WriteTrace] under a log frequency, with
    a budget that is not used up. *)
Lemma WriteTrace_log_frequency s (streams : gmap Z string) f fs :
  0 < log_frequency_ s -> count_ s <> 0 ->
  0 <= sample_in_stream_ s < log_frequency_ s ->
  let result := WriteTrace s streams f fs in
  let s' := fst (fst result) in
  let f' := snd (fst result) in
  log_frequency_ s' = log_frequency_ s /\ count_ s' = count_ s
  /\ collected_ s' = collected_ s + 1
  /\ trace_file_ f' = trace_file_ f /\ first_write_ f' = first_write_ f
  /\ (if sample_in_stream_ s + 1 <? log_frequency_ s
      then sample_in_stream_ s' = sample_in_stream_ s + 1
           /\ index_ f' = index_ f
      else sample_in_stream_ s' = 0 /\ index_ f' = index_ f + 1).
Proof.
  intros HL Hcount Hsis. unfold WriteTrace, flush_due.
  destruct (Z.eqb_spec (count_ s) 0) as [|_]; [contradiction|].
  destruct (Z.eqb_spec (log_frequency_ s) 0) as [|_]; [lia|].
  cbn [andb orb negb].
  destruct (Z.leb_spec (log_frequency_ s) (sample_in_stream_ s + 1)) as [Hle|Hlt];
    destruct (Z.ltb_spec (sample_in_stream_ s + 1) (log_frequency_ s)); try lia;
    cbv zeta; unfold SaveTraces; cbn; repeat split; reflexivity.
Qed.

Lemma write_traces_cons st streams traces :
  write_traces st (streams :: traces)
  = write_traces (WriteTrace (fst (fst st)) streams (snd (fst st)) (snd st)) traces.
Proof. reflexivity. Qed.

(** X19: under a log frequency L > 0 and a budget that is not used up, an
    indexed file is written at every L-th collected trace and at no other:
    after n more traces the file counter has advanced by the number of
    multiples of L reached, the batch holds the remainder, and the main
    file is not touched. *)
Theorem log_frequency_flushes_periodically
    (traces : list (gmap Z string)) (s : TraceSetting) (f : TraceFile)
    (fs : gmap string string) :
  0 < log_frequency_ s -> count_ s <> 0 ->
  0 <= sample_in_stream_ s < log_frequency_ s ->
  let result := write_traces (s, f, fs) traces in
  let s' := fst (fst result) in
  let f' := snd (fst result) in
  let n := sample_in_stream_ s + Z.of_nat (List.length traces) in
  index_ f' = index_ f + n / log_frequency_ s
  /\ sample_in_stream_ s' = n mod log_frequency_ s
  /\ collected_ s' = collected_ s + Z.of_nat (List.length traces)
  /\ trace_file_ f' = trace_file_ f /\ first_write_ f' = first_write_ f.
Proof.
  revert s f fs. induction traces as [|streams rest IH];
    intros s f fs HL Hcount Hsis; cbv zeta.
  - cbn [write_traces fold_left fst snd List.length].
    rewrite Z.add_0_r, Z.div_small, Z.mod_small by lia.
    repeat split; lia.
  - rewrite write_traces_cons. cbn [fst snd].
    pose proof (WriteTrace_log_frequency s streams f fs HL Hcount Hsis) as Hstep.
    cbv zeta in Hstep.
    destruct (WriteTrace s streams f fs) as [[s1 f1] fs1]. cbn [fst snd] in Hstep.
    destruct Hstep as (HL1 & Hcount1 & Hcollected & Hfile & Hfirst & Hcase).
    specialize (IH s1 f1 fs1). cbv zeta in IH.
    rewrite HL1, Hcount1 in IH.
    cbn [List.length]. rewrite Nat2Z.inj_succ.
    destruct (Z.ltb_spec (sample_in_stream_ s + 1) (log_frequency_ s)) as [Hlt|Hge];
      destruct Hcase as [Hsis1 Hindex1]; rewrite Hsis1 in IH;
      specialize (IH HL Hcount ltac:(lia));
      destruct IH as (Hi & Hs & Hc & Hf & Hw).
    + replace (sample_in_stream_ s + Z.succ (Z.of_nat (List.length rest)))
        with (sample_in_stream_ s + 1 + Z.of_nat (List.length rest)) by lia.
      repeat split; congruence || lia.
    + assert (Hfull : sample_in_stream_ s + 1 = log_frequency_ s) by lia.
      replace (sample_in_stream_ s + Z.succ (Z.of_nat (List.length rest)))
        with (Z.of_nat (List.length rest) + 1 * log_frequency_ s) by lia.
      rewrite Z.div_add, Z.mod_add by lia.
      rewrite Z.add_0_l in Hi, Hs.
      repeat split; congruence || lia.
Qed.

(** One call of [WriteTrace] without a log frequency, with a budget that is
    not used up: the trace joins the batch and no file is written. *)
Lemma WriteTrace_keeps_batch s (streams : gmap Z string) f fs :
  log_frequency_ s = 0 -> count_ s <> 0 ->
  let result := WriteTrace s streams f fs in
  let s' := fst (fst result) in
  snd (fst result) = f /\ snd result = fs
  /\ log_frequency_ s' = 0 /\ count_ s' = count_ s /\ mode_ s' = mode_ s
  /\ sample_in_stream_ s' = sample_in_stream_ s + 1
  /\ collected_ s' = collected_ s + 1.
Proof.
  intros HL Hcount. unfold WriteTrace, flush_due. rewrite HL.
  destruct (Z.eqb_spec (count_ s) 0) as [|_]; [contradiction|].
  cbn. repeat split; assumption.
Qed.

(** X21: without a log frequency and with a budget that is not used up,
    collecting traces writes no file and leaves the sink as it is; the
    traces reach a file only when the local-mode setting is destroyed, and
    then the whole batch goes to the main file. *)
Theorem batch_waits_for_destruction
    (traces : list (gmap Z string)) (s : TraceSetting) (f : TraceFile)
    (fs : gmap string string) :
  mode_ s = TRACE_MODE_TRITON ->
  log_frequency_ s = 0 -> count_ s <> 0 -> 0 <= sample_in_stream_ s ->
  traces <> [] ->
  let result := write_traces (s, f, fs) traces in
  let s' := fst (fst result) in
  snd (fst result) = f /\ snd result = fs
  /\ sample_in_stream_ s' = sample_in_stream_ s + Z.of_nat (List.length traces)
  /\ TraceSetting_destroy s' f fs
     = SaveTraces f fs (sbuf (trace_stream_ s')) false.
Proof.
  intros Hmode HL Hcount Hsis Htraces. cbv zeta.
  assert (Hrun : forall traces s,
             mode_ s = TRACE_MODE_TRITON ->
             log_frequency_ s = 0 -> count_ s <> 0 ->
             let result := write_traces (s, f, fs) traces in
             let s' := fst (fst result) in
             snd (fst result) = f /\ snd result = fs
             /\ mode_ s' = TRACE_MODE_TRITON /\ log_frequency_ s' = 0
             /\ sample_in_stream_ s'
                = sample_in_stream_ s + Z.of_nat (List.length traces)).
  { clear. intros traces. induction traces as [|streams rest IH];
      intros s Hmode HL Hcount; cbv zeta.
    - cbn [write_traces fold_left fst snd List.length].
      repeat split; try assumption; lia.
    - rewrite write_traces_cons. cbn [fst snd].
      pose proof (WriteTrace_keeps_batch s streams f fs HL Hcount) as Hstep.
      cbv zeta in Hstep.
      destruct (WriteTrace s streams f fs) as [[s1 f1] fs1]. cbn [fst snd] in Hstep.
      destruct Hstep as (-> & -> & HL1 & Hcount1 & Hmode1 & Hsis1 & _).
      specialize (IH s1 ltac:(congruence) HL1 ltac:(congruence)).
      cbv zeta in IH. destruct IH as (Hf & Hfs & Hm & Hl & Hs).
      cbn [List.length]. repeat split; try assumption. lia. }
  specialize (Hrun traces s Hmode HL Hcount). cbv zeta in Hrun.
  destruct Hrun as (Hf & Hfs & Hm & Hl & Hs).
  repeat split; try assumption.
  unfold TraceSetting_destroy. rewrite Hm, Hl, Hs.
  rewrite bool_decide_eq_true_2 by reflexivity.
  destruct (Z.eqb_spec (sample_in_stream_ s + Z.of_nat (List.length traces)) 0)
    as [Hzero|_].
  - destruct traces; [contradiction | cbn [List.length] in Hzero; lia].
  - reflexivity.
Qed.

End Collecting.

Lemma log_frequency_flushes_periodically_witness :
  let result :=
    write_traces (container := example_container) (example_setting 1 10 2, TraceFile_new "/tmp/t", ∅)
      [example_streams; example_streams; example_streams] in
  index_ (snd (fst result)) = 1 /\ sample_in_stream_ (fst (fst result)) = 1.
Proof.
  assert (H := log_frequency_flushes_periodically (container := example_container)
                 [example_streams; example_streams; example_streams]
                 (example_setting 1 10 2) (TraceFile_new "/tmp/t") ∅).
  cbv zeta in *.
  destruct H as (Hindex & Hbatch & _);
    [reflexivity | discriminate | split; [discriminate | reflexivity] | ].
  split; [rewrite Hindex | rewrite Hbatch]; reflexivity.
Defined.

Lemma batch_waits_for_destruction_witness :
  snd (write_traces (container := example_container) (example_setting 1 10 0, TraceFile_new "/tmp/t", ∅)
         [example_streams; example_streams])
  = ∅.
Proof.
  assert (H := batch_waits_for_destruction (container := example_container)
                 [example_streams; example_streams]
                 (example_setting 1 10 0) (TraceFile_new "/tmp/t") ∅).
  cbv zeta in *.
  destruct H as (_ & Hfiles & _);
    [reflexivity | reflexivity | discriminate | discriminate | discriminate | ].
  exact Hfiles.
Defined.

(** The main file, once opened and in good state, after more batches. *)
Lemma save_batches_open (batches : list string) (f : TraceFile)
    (fs : gmap string string) :
  first_write_ f = false -> sfail (trace_file_ f) = false ->
  Forall (λ batch, batch <> "") batches ->
  save_batches (f, fs) batches
  = ({| file_name_ := file_name_ f; index_ := index_ f; first_write_ := false;
        trace_file_ :=
          {| sbuf := sbuf (trace_file_ f) +:+ with_commas batches;
             sfail := false |} |}, fs).
Proof.
  revert f. induction batches as [|batch rest IH]; intros f Hfirst Hgood Hall.
  - cbn [save_batches fold_left with_commas]. rewrite str_app_nil_r.
    destruct f as [name index first [buf fail]]. cbn in *. subst. reflexivity.
  - inversion Hall as [|? ? Hbatch Hrest]; subst.
    unfold save_batches. cbn [fold_left fst snd].
    fold (save_batches (SaveTraces f fs batch false) rest).
    unfold SaveTraces. rewrite Hfirst.
    unfold put at 1. rewrite Hgood.
    unfold put_rdbuf. cbn [sfail sbuf].
    destruct (String.eqb_spec batch "") as [|_]; [contradiction|].
    rewrite IH by (reflexivity || exact Hrest).
    cbn [file_name_ index_ trace_file_ sbuf with_commas].
    rewrite !str_app_assoc. reflexivity.
Qed.

Lemma joined_with_commas (batch : string) (batches : list string) :
  batch +:+ with_commas batches = String.concat "," (batch :: batches).
Proof.
  revert batch. induction batches as [|next rest IH]; intros batch.
  - cbn [with_commas String.concat]. apply str_app_nil_r.
  - cbn [with_commas]. rewrite IH. reflexivity.
Qed.

Lemma first_batch_opens_main_file (file_name batch : string)
    (fs : gmap string string) :
  batch <> "" ->
  SaveTraces (TraceFile_new file_name) fs batch false
  = ({| file_name_ := file_name; index_ := 0; first_write_ := false;
        trace_file_ := {| sbuf := "[" +:+ batch; sfail := false |} |}, fs).
Proof.
  intros Hbatch. unfold SaveTraces, TraceFile_new, put, put_rdbuf.
  cbn [first_write_ trace_file_ file_name_ index_ sfail sbuf sstream_empty].
  destruct (String.eqb_spec batch "") as [|_]; [contradiction|].
  rewrite str_app_nil_l. reflexivity.
Qed.

(** X20: the main file of a new sink that receives non-empty batches and is
    then closed holds the batches in the order they were saved, separated
    by commas, inside one pair of square brackets; no other file is
    written. *)
Theorem main_file_holds_batches_in_order
    (file_name : string) (batch : string) (batches : list string)
    (fs : gmap string string) :
  Forall (λ batch, batch <> "") (batch :: batches) ->
  let result := save_batches (TraceFile_new file_name, fs) (batch :: batches) in
  TraceFile_destroy (fst result) (snd result)
  = <[file_name := "[" +:+ String.concat "," (batch :: batches) +:+ "]"]> fs.
Proof.
  intros Hall result. subst result.
  inversion Hall as [|? ? Hbatch Hrest]; subst.
  unfold save_batches. cbn [fold_left fst snd].
  fold (save_batches (SaveTraces (TraceFile_new file_name) fs batch false) batches).
  rewrite (first_batch_opens_main_file _ _ _ Hbatch).
  rewrite save_batches_open by (reflexivity || exact Hrest).
  cbn [fst snd]. unfold TraceFile_destroy, put.
  cbn [first_write_ trace_file_ file_name_ sfail sbuf].
  rewrite <- joined_with_commas, !str_app_assoc. reflexivity.
Qed.

Lemma main_file_holds_batches_in_order_witness :
  TraceFile_destroy
    (fst (save_batches (TraceFile_new "/tmp/t", ∅) ["{}"; "{}"]))
    (snd (save_batches (TraceFile_new "/tmp/t", ∅) ["{}"; "{}"]))
  = <["/tmp/t" := "[" +:+ String.concat "," ["{}"; "{}"] +:+ "]"]> ∅.
Proof.
  apply (main_file_holds_batches_in_order "/tmp/t" "{}" ["{}"] ∅).
  repeat constructor; discriminate.
Defined.

